(** * NotebookSketch: the session state and its handlers

    A shallow embedding of the React component [NotebookSketchApp].  The
    repository carries the component twice: [src/unnamed/part_000] (the
    earlier text, after the Vite configuration) and [src/unnamed/part_001]
    (the later text, which records the last prompt and classifies caught
    failures in three branches).  The hooks [useState] of the component
    become the fields of a record; every handler is the list of calls it
    makes, in order, on the state setters, on [localStorage] and on the
    generation API; [run] replays such a list on the session. *)

From Stdlib Require Import Ascii String.
From stdpp Require Import base gmap strings list.

Local Open Scope string_scope.
Local Open Scope list_scope.

(** ** JavaScript strings *)

(** A text is held as the bytes of its UTF-8 form, which is what a string
    literal of this file is; the characters the handlers look for (comma,
    colon, semicolon, the phrases of the messages) are ASCII and never fall
    inside the bytes of another character.  A binary string, what [atob]
    returns, holds one character per byte. *)

(** [!!s] on a string: only the empty string is falsy. *)
Definition truthy (s : string) : bool :=
  match s with
  | EmptyString => false
  | String _ _ => true
  end.

(** [!!v] on a [string | null | undefined]. *)
Definition truthy_opt (v : option string) : bool :=
  match v with
  | Some s => truthy s
  | None => false
  end.

(** [v || d] where [d] is a string. *)
Definition or_else (v : option string) (d : string) : string :=
  match v with
  | Some s => if truthy s then s else d
  | None => d
  end.

(** [String.prototype.includes]. *)
Fixpoint includes (s sub : string) : bool :=
  String.prefix sub s ||
  match s with
  | EmptyString => false
  | String _ s' => includes s' sub
  end.

(** [String.prototype.split] on a one-character separator. *)
Fixpoint split (sep : ascii) (s : string) : list string :=
  match s with
  | EmptyString => [EmptyString]
  | String c s' =>
      if Ascii.eqb c sep then EmptyString :: split sep s'
      else match split sep s' with
           | hd :: tl => String c hd :: tl
           | [] => [String c EmptyString]
           end
  end.

(** [a[i]] on an array of strings: [undefined] out of range. *)
Definition at_index (a : list string) (i : nat) : option string := a !! i.

Definition dquote : string := String (ascii_of_nat 34) EmptyString.
Definition newline : string := String (ascii_of_nat 10) EmptyString.

(** ** The session state *)

Inductive PaperType := lined | graph | plain.

Definition PaperType_str (p : PaperType) : string :=
  match p with
  | lined => "lined"
  | graph => "graph"
  | plain => "plain"
  end.

(** The [useState] cells of the component.  [lastPrompt] exists in
    [part_001] only; [part_000] never writes it. *)
Record State := mkState {
  selectedImage : option string;
  generatedImage : option string;
  isGenerating : bool;
  error : option string;
  customText : string;
  paperType : PaperType;
  lastPrompt : string;
  apiKey : string
}.

(** The page: the component state and the browser-local store. *)
Record Page := mkPage {
  state : State;
  localStorage : gmap string string
}.

(** ** The generation API (GoogleGenAI) as the component sees it *)

Record GenerateContentParameters := mkRequest {
  req_model : string;
  req_text : string;
  req_mimeType : option string;
  req_data : option string
}.

Record Blob := mkBlob {
  mimeType : option string;
  data : option string
}.

Record Part := mkPart {
  inlineData : option Blob;
  part_text : option string
}.

Record Content := mkContent { parts : option (list Part) }.

Record Candidate := mkCandidate { content : option Content }.

Record GenerateContentResponse := mkResponse {
  candidates : option (list Candidate);
  text : option string
}.

(** A caught value [err : any], through the two things the handler reads
    from it: [err.toString()] and [err.message]. *)
Record Thrown := mkThrown {
  toString : string;
  message : option string
}.

(** [new Error(msg)]: its string form is the name, a colon and the
    message (the bare name when the message is empty). *)
Definition new_Error (msg : string) : Thrown :=
  {| toString := if truthy msg then "Error: " +:+ msg else "Error";
     message := Some msg |}.

(** What awaiting [ai.models.generateContent] gives: a response, or a
    thrown value (a rejected call, or a throw of the client on the way to
    it). *)
Inductive Outcome :=
| Resolved (response : GenerateContentResponse)
| Rejected (err : Thrown).

(** ** Calls a handler makes *)

Inductive Action :=
| setSelectedImage (v : option string)
| setGeneratedImage (v : option string)
| setIsGenerating (b : bool)
| setError (v : option string)
| setCustomText (t : string)
| setPaperType (p : PaperType)
| setLastPrompt (p : string)
| setApiKey (k : string)
| localStorage_setItem (k v : string)
| generateContent (req : GenerateContentParameters).

Definition perform (w : Page) (a : Action) : Page :=
  let s := state w in
  match a with
  | setSelectedImage v =>
      mkPage (mkState v (generatedImage s) (isGenerating s) (error s)
                (customText s) (paperType s) (lastPrompt s) (apiKey s))
             (localStorage w)
  | setGeneratedImage v =>
      mkPage (mkState (selectedImage s) v (isGenerating s) (error s)
                (customText s) (paperType s) (lastPrompt s) (apiKey s))
             (localStorage w)
  | setIsGenerating b =>
      mkPage (mkState (selectedImage s) (generatedImage s) b (error s)
                (customText s) (paperType s) (lastPrompt s) (apiKey s))
             (localStorage w)
  | setError v =>
      mkPage (mkState (selectedImage s) (generatedImage s) (isGenerating s) v
                (customText s) (paperType s) (lastPrompt s) (apiKey s))
             (localStorage w)
  | setCustomText t =>
      mkPage (mkState (selectedImage s) (generatedImage s) (isGenerating s)
                (error s) t (paperType s) (lastPrompt s) (apiKey s))
             (localStorage w)
  | setPaperType p =>
      mkPage (mkState (selectedImage s) (generatedImage s) (isGenerating s)
                (error s) (customText s) p (lastPrompt s) (apiKey s))
             (localStorage w)
  | setLastPrompt p =>
      mkPage (mkState (selectedImage s) (generatedImage s) (isGenerating s)
                (error s) (customText s) (paperType s) p (apiKey s))
             (localStorage w)
  | setApiKey k =>
      mkPage (mkState (selectedImage s) (generatedImage s) (isGenerating s)
                (error s) (customText s) (paperType s) (lastPrompt s) k)
             (localStorage w)
  | localStorage_setItem k v => mkPage s (<[k := v]> (localStorage w))
  | generateContent _ => w
  end.

Definition run (w : Page) (acts : list Action) : Page :=
  fold_left perform acts w.

(** The pages a handler passes through: the page after each of its calls. *)
Fixpoint trace (w : Page) (acts : list Action) : list Page :=
  match acts with
  | [] => []
  | a :: rest => perform w a :: trace (perform w a) rest
  end.

(** ** Page load *)

(** [a || b] where both sides may be [null] or [undefined]. *)
Definition or_opt (a b : option string) : option string :=
  if truthy_opt a then a else b.

Definition storage_key : string := "gemini_api_key".

(** The initialiser of the [apiKey] cell:
    [localStorage.getItem("gemini_api_key") || process.env.API_KEY || ""]. *)
Definition initialApiKey (ls : gmap string string) (env_API_KEY : option string)
  : string :=
  or_else (or_opt (ls !! storage_key) env_API_KEY) "".

(** The first render: every [useState] cell takes its initial value. *)
Definition initialState (ls : gmap string string) (env_API_KEY : option string)
  : State :=
  {| selectedImage := None;
     generatedImage := None;
     isGenerating := false;
     error := None;
     customText := "FESTIVAL, LOVE, FUN";
     paperType := lined;
     lastPrompt := "";
     apiKey := initialApiKey ls env_API_KEY |}.

(** Loading the page over a store that outlives it. *)
Definition load (ls : gmap string string) (env_API_KEY : option string) : Page :=
  mkPage (initialState ls env_API_KEY) ls.

(** ** Handlers whose text is the same in both files *)

Definition handleApiKeyChange (s : State) (newKey : string) : list Action :=
  [setApiKey newKey; localStorage_setItem storage_key newKey] ++
  match error s with
  | Some e =>
      if truthy e && (includes e "API key" || includes e "Authentication")
      then [setError None]
      else []
  | None => []
  end.

(** A chosen file, through what [FileReader.readAsDataURL] leaves in
    [reader.result] when [onloadend] fires: the data URL, or [null] when the
    read failed. *)
Record File := mkFile { reader_result : option string }.

Definition onloadend (file : File) : list Action :=
  [setSelectedImage (reader_result file); setGeneratedImage None; setError None].

(** [files] is [event.target.files]. *)
Definition handleImageUpload (files : option (list File)) : list Action :=
  match files with
  | Some (file :: _) => onloadend file
  | _ => []
  end.

(** ** The generation request *)

Definition prompt_of (p : PaperType) (words : string) : string :=
  "Convert this photo into a creative, hand-drawn colored pencil sketch on "
  +:+ PaperType_str p +:+ " notebook paper. " +:+ newline
  +:+ "      " +:+ newline
  +:+ "      Style details:" +:+ newline
  +:+ "      - The background MUST look like a real sheet of "
  +:+ PaperType_str p +:+ " paper." +:+ newline
  +:+ "      - The subjects should be drawn in a loose, artistic colored pencil or ballpoint pen style." +:+ newline
  +:+ "      - Add a slight glowing yellow or neon outline around the main subjects." +:+ newline
  +:+ "      - Add playful, hand-drawn red or blue ink speech bubbles and doodles around the subjects." +:+ newline
  +:+ "      - Inside the speech bubbles/doodles, include these specific words: "
  +:+ dquote +:+ words +:+ dquote +:+ "." +:+ newline
  +:+ "      - Add decorative stars, hearts, and squiggles in the empty spaces." +:+ newline
  +:+ "      - The overall vibe should be fun, energetic, and scrapbook-style.".

Definition msg_missing_key : string :=
  "Please enter your Gemini API Key first.".
Definition msg_text_instead : string :=
  "The AI returned text instead of an image. It might have misunderstood the prompt or triggered a safety filter.".
Definition msg_no_image : string :=
  "No image was generated. Please try again with a different photo.".
Definition msg_auth : string :=
  "Authentication failed. Please check your API key.".
Definition msg_billing : string :=
  "Generation failed. This is often because your API key is not linked to a billing account (required for image generation). Please check Option 1 below or use Option 2.".
Definition msg_failed : string :=
  "Failed to generate sketch. Please try a different photo.".

(** [response.candidates?.[0]?.content?.parts]. *)
Definition response_parts (response : GenerateContentResponse)
  : option (list Part) :=
  match candidates response with
  | Some (candidate :: _) =>
      match content candidate with
      | Some c => parts c
      | None => None
      end
  | _ => None
  end.

(** [part.inlineData && part.inlineData.data]. *)
Definition has_image (part : Part) : bool :=
  match inlineData part with
  | Some blob => truthy_opt (data blob)
  | None => false
  end.

(** The template [data:${imgMime};base64,${part.inlineData.data}]. *)
Definition data_url (part : Part) : string :=
  match inlineData part with
  | Some blob =>
      "data:" +:+ or_else (mimeType blob) "image/png" +:+ ";base64,"
      +:+ default "" (data blob)
  | None => ""
  end.

(** The [for ... of] loop over the parts, leaving at the first image. *)
Fixpoint find_image (ps : list Part) : option string :=
  match ps with
  | [] => None
  | part :: rest =>
      if has_image part then Some (data_url part) else find_image rest
  end.

(** [foundImage], with the URL handed to [setGeneratedImage]; no parts, no
    loop. *)
Definition find_first_image (response : GenerateContentResponse)
  : option string :=
  match response_parts response with
  | Some ps => find_image ps
  | None => None
  end.

(** The argument of [ai.models.generateContent]: the model name, the prompt
    and the selected image cut into its MIME type and its base64 payload. *)
Definition request_of (img prompt : string) : GenerateContentParameters :=
  let model := "gemini-2.5-flash-image" in
  let base64Data := at_index (split "," img) 1 in
  let mimeType :=
    match at_index (split ";" img) 0 with
    | Some header => at_index (split ":" header) 1
    | None => None
    end in
  mkRequest model prompt mimeType base64Data.

(** The body of [try], given the selected image and the prompt: the calls
    it makes, and the value it throws if it does not run to its end. *)
Definition try_block (img prompt : string)
    (api : GenerateContentParameters → Outcome)
  : list Action * option Thrown :=
  let req := request_of img prompt in
  match api req with
  | Rejected err => ([generateContent req], Some err)
  | Resolved response =>
      match find_first_image response with
      | Some url => ([generateContent req; setGeneratedImage (Some url)], None)
      | None =>
          if truthy_opt (text response)
          then ([generateContent req], Some (new_Error msg_text_instead))
          else ([generateContent req], Some (new_Error msg_no_image))
      end
  end.

(** [try { ... } catch (err) { ... } finally { ... }]. *)
Definition try_catch_finally (body : list Action * option Thrown)
    (handler : Thrown → list Action) (final : list Action) : list Action :=
  fst body ++
  match snd body with
  | Some err => handler err
  | None => []
  end ++ final.

(** ** [handleGenerate] in [src/unnamed/part_000] *)
Module Part000.

Definition catch_block (err : Thrown) : list Action :=
  if includes (toString err) "401" || includes (toString err) "403"
     || includes (toString err) "API key"
  then [setError (Some msg_auth)]
  else [setError (Some (or_else (message err) msg_failed))].

Definition handleGenerate (s : State)
    (api : GenerateContentParameters → Outcome) : list Action :=
  match selectedImage s with
  | None => []
  | Some img =>
      if negb (truthy img) then []
      else if negb (truthy (apiKey s)) then [setError (Some msg_missing_key)]
      else
        [setIsGenerating true; setError None; setGeneratedImage None] ++
        try_catch_finally
          (try_block img (prompt_of (paperType s) (customText s)) api)
          catch_block
          [setIsGenerating false]
  end.

End Part000.

(** ** [handleGenerate] in [src/unnamed/part_001] *)
Module Part001.

Definition catch_block (err : Thrown) : list Action :=
  let errorString := toString err in
  let errorMessage := or_else (message err) "" in
  if includes errorString "401" || includes errorString "403"
     || includes errorString "API key" || includes errorMessage "API key"
  then [setError (Some msg_auth)]
  else if includes errorMessage "safety filter"
          || includes errorMessage "text instead of an image"
          || includes errorMessage "No image was generated"
  then [setError (Some errorMessage)]
  else [setError (Some msg_billing)].

Definition handleGenerate (s : State)
    (api : GenerateContentParameters → Outcome) : list Action :=
  match selectedImage s with
  | None => []
  | Some img =>
      if negb (truthy img) then []
      else if negb (truthy (apiKey s)) then [setError (Some msg_missing_key)]
      else
        let prompt := prompt_of (paperType s) (customText s) in
        [setIsGenerating true; setError None; setGeneratedImage None] ++
        [setLastPrompt prompt] ++
        try_catch_finally (try_block img prompt api) catch_block
          [setIsGenerating false]
  end.

End Part001.

(** The two texts of the component. *)
Inductive Revision := part_000 | part_001.

Definition handleGenerate (r : Revision) (s : State)
    (api : GenerateContentParameters → Outcome) : list Action :=
  match r with
  | part_000 => Part000.handleGenerate s api
  | part_001 => Part001.handleGenerate s api
  end.

Definition catch_block (r : Revision) : Thrown → list Action :=
  match r with
  | part_000 => Part000.catch_block
  | part_001 => Part001.catch_block
  end.

(** What [part_001] adds between the resets and [try]. *)
Definition record_prompt (r : Revision) (s : State) : list Action :=
  match r with
  | part_000 => []
  | part_001 => [setLastPrompt (prompt_of (paperType s) (customText s))]
  end.

(** ** The controls of the page *)

(** The controls bound to a handler that writes the session: the file
    input, the three paper buttons, the caption field, the key field, the
    generate button (with its [disabled] attribute) and the clear button. *)
Inductive Event :=
| FileChosen (files : option (list File))
| PaperClicked (p : PaperType)
| TextTyped (t : string)
| KeyTyped (newKey : string)
| GenerateClicked (api : GenerateContentParameters → Outcome)
| ClearClicked.

Definition dispatch (r : Revision) (s : State) (ev : Event) : list Action :=
  match ev with
  | FileChosen files => handleImageUpload files
  | PaperClicked p => [setPaperType p]
  | TextTyped t => [setCustomText t]
  | KeyTyped newKey => handleApiKeyChange s newKey
  | GenerateClicked api =>
      if negb (truthy_opt (selectedImage s)) || isGenerating s then []
      else handleGenerate r s api
  | ClearClicked => [setGeneratedImage None]
  end.

(** A visit: the events of the page in order, each handler run to its end
    before the next event. *)
Definition session (r : Revision) (w : Page) (evs : list Event) : Page :=
  fold_left (λ w ev, run w (dispatch r (state w) ev)) evs w.

(** ** Words of the specification *)

(** Both guards of [handleGenerate] let the attempt through. *)
Definition guards_pass (s : State) : bool :=
  truthy_opt (selectedImage s) && truthy (apiKey s).

(** A credential-related phrase occurs in the text. *)
Definition mentions_credential (t : string) : bool :=
  includes t "401" || includes t "403" || includes t "API key".

(** The message signals a missing image or a safety-filter rejection. *)
Definition signals_domain (m : string) : bool :=
  includes m "safety filter" || includes m "text instead of an image"
  || includes m "No image was generated".

(** A handler issues a request to the generation API. *)
Definition issues_request (acts : list Action) : bool :=
  existsb (λ a, match a with generateContent _ => true | _ => false end) acts.

(** A handler writes the busy flag. *)
Definition writes_busy (acts : list Action) : bool :=
  existsb (λ a, match a with setIsGenerating _ => true | _ => false end) acts.

(** The first candidate of the response has a part carrying inline image
    data. *)
Definition image_bearing (response : GenerateContentResponse) : bool :=
  match response_parts response with
  | Some ps => existsb has_image ps
  | None => false
  end.

(** A handler writes the credential: the [apiKey] cell or the store. *)
Definition writes_credential (acts : list Action) : bool :=
  existsb (λ a, match a with
                | setApiKey _ | localStorage_setItem _ _ => true
                | _ => false
                end) acts.

(** The prompt of an attempt started in [s]. *)
Definition prompt (s : State) : string :=
  prompt_of (paperType s) (customText s).

(** ** Sample sessions *)

Definition sample_image : string := "data:image/png;base64,AAAA".

(** A page on which a photo was chosen and a key typed. *)
Definition ready_state : State :=
  {| selectedImage := Some sample_image;
     generatedImage := None;
     isGenerating := false;
     error := None;
     customText := "FESTIVAL, LOVE, FUN";
     paperType := lined;
     lastPrompt := "";
     apiKey := "AIza-sample" |}.

(** The first render with nothing stored and no build-time key. *)
Definition blank_state : State := initialState ∅ None.

(** A page that shows a sketch from an earlier attempt, the key field
    emptied since. *)
Definition keyless_state : State :=
  {| selectedImage := Some sample_image;
     generatedImage := Some "data:image/png;base64,OLD";
     isGenerating := false;
     error := None;
     customText := "FESTIVAL, LOVE, FUN";
     paperType := lined;
     lastPrompt := "";
     apiKey := "" |}.

Definition text_part : Part := mkPart None (Some "Here is your sketch").
Definition png_part : Part :=
  mkPart (Some (mkBlob (Some "image/png") (Some "BBBB"))) None.
Definition bare_part : Part := mkPart (Some (mkBlob None (Some "CCCC"))) None.

Definition jpeg_part : Part :=
  mkPart (Some (mkBlob (Some "image/jpeg") (Some "DDDD"))) None.

Definition response_with (ps : list Part) (t : option string)
  : GenerateContentResponse :=
  mkResponse (Some [mkCandidate (Some (mkContent (Some ps)))]) t.

Definition image_response : GenerateContentResponse :=
  response_with [text_part; bare_part; png_part] (Some "Here is your sketch").
Definition jpeg_response : GenerateContentResponse :=
  response_with [text_part; jpeg_part; png_part] None.
Definition text_response : GenerateContentResponse :=
  response_with [text_part] (Some "Here is your sketch").
Definition empty_response : GenerateContentResponse :=
  mkResponse (Some []) None.

(** [TypeError: Failed to fetch], what [fetch] rejects with off line. *)
Definition fetch_error : Thrown :=
  mkThrown "TypeError: Failed to fetch" (Some "Failed to fetch").

(** A value thrown as a plain object: [toString] is the one of [Object],
    the status is in [message] only. *)
Definition status_object : Thrown :=
  mkThrown "[object Object]" (Some "Request failed with status 401").

Definition always (o : Outcome) : GenerateContentParameters → Outcome :=
  λ _, o.

(** ** Sharing and saving the sketch *)

(** How a call ends: it returns a value, or it throws. *)
Inductive Completion (A : Type) :=
| Normal (a : A)
| Abrupt.
Arguments Normal {A} a.
Arguments Abrupt {A}.

(** The [File] that [new File([u8arr], filename, { type: mime })] returns:
    its bytes, its name and its [type] attribute. *)
Record JsFile := mkJsFile {
  file_bits : list nat;
  file_name : string;
  file_type : string
}.

(** A character of U+0020 to U+007E. *)
Definition is_printable (c : ascii) : bool :=
  (32 <=? nat_of_ascii c)%nat && (nat_of_ascii c <=? 126)%nat.

(** ASCII lower case of one character. *)
Definition to_lower (c : ascii) : ascii :=
  if (65 <=? nat_of_ascii c)%nat && (nat_of_ascii c <=? 90)%nat
  then ascii_of_nat (nat_of_ascii c + 32)
  else c.

Fixpoint all_printable (t : string) : bool :=
  match t with
  | EmptyString => true
  | String c t' => is_printable c && all_printable t'
  end.

Fixpoint lowercase (t : string) : string :=
  match t with
  | EmptyString => EmptyString
  | String c t' => String (to_lower c) (lowercase t')
  end.

(** The [type] attribute the [File] constructor makes of its [type]
    option: the empty string when the option holds a character outside
    U+0020 to U+007E, else the option in ASCII lower case. *)
Definition file_type_attribute (t : string) : string :=
  if all_printable t then lowercase t else EmptyString.

(** A character the [.] of a regular expression does not match stands at
    the head of the text: LF, CR, or U+2028 or U+2029 (in UTF-8 the bytes
    226 128 168 and 226 128 169). *)
Definition is_line_terminator (s : string) : bool :=
  match s with
  | String c s' =>
      Ascii.eqb c "010" || Ascii.eqb c "013" ||
      (Ascii.eqb c "226" &&
       match s' with
       | String c1 (String c2 _) =>
           Ascii.eqb c1 "128" && (Ascii.eqb c2 "168" || Ascii.eqb c2 "169")
       | _ => false
       end)
  | EmptyString => false
  end.

(** [(.*?);] at the head of [s]: the shortest run of characters up to a
    semicolon, none of them a line terminator. *)
Fixpoint lazy_until_semicolon (s : string) : option string :=
  match s with
  | EmptyString => None
  | String c s' =>
      if Ascii.eqb c ";" then Some EmptyString
      else if is_line_terminator s then None
      else match lazy_until_semicolon s' with
           | Some m => Some (String c m)
           | None => None
           end
  end.

(** [s.match(/:(.*?);/)], through its group 1: the leftmost colon that a
    semicolon follows on the same line, and what stands between them. *)
Fixpoint match_mime (s : string) : option string :=
  match s with
  | EmptyString => None
  | String c s' =>
      if Ascii.eqb c ":" then
        match lazy_until_semicolon s' with
        | Some m => Some m
        | None => match_mime s'
        end
      else match_mime s'
  end.

(** [s.charCodeAt(i)]: [NaN] out of range. *)
Definition charCodeAt (s : string) (i : nat) : option nat :=
  match String.get i s with
  | Some c => Some (nat_of_ascii c)
  | None => None
  end.

(** Storing into a [Uint8Array]: modulo 256, [NaN] as 0. *)
Definition to_uint8 (v : option nat) : nat :=
  match v with
  | Some n => n mod 256
  | None => 0
  end.

(** [while (n--) { u8arr[n] = bstr.charCodeAt(n); }]. *)
Fixpoint fill (n : nat) (bstr : string) (u8arr : list nat) : list nat :=
  match n with
  | 0 => u8arr
  | S n' => fill n' bstr (<[n' := to_uint8 (charCodeAt bstr n')]> u8arr)
  end.

(** [dataURLtoFile], the same text in both files.  [atob] is the one of the
    browser: the decoded binary string, or nothing when it throws. *)
Definition dataURLtoFile (atob : string → option string)
    (dataurl filename : string) : Completion (option JsFile) :=
  let arr := split "," dataurl in
  match at_index arr 0 with
  | None => Abrupt
  | Some header =>
      match match_mime header with
      | None => Normal None
      | Some mime =>
          match atob (match at_index arr 1 with
                      | Some payload => payload
                      | None => "undefined"
                      end) with
          | None => Abrupt
          | Some bstr =>
              let n := String.length bstr in
              Normal (Some (mkJsFile (fill n bstr (replicate n 0)) filename
                              (file_type_attribute mime)))
          end
      end
  end.

(** [navigator], through what [handleDownload] asks of it: [share] and
    [canShare] when the browser has them; [share] answers whether its
    promise resolves. *)
Record Navigator := mkNavigator {
  share : option (JsFile → bool);
  canShare : option (JsFile → bool)
}.

(** What [handleDownload] does to hand the sketch over. *)
Inductive Delivery :=
| navigator_share (file : JsFile) (title text : string)
| link_click (href download : string).

Definition handleDownload (s : State) (navigator : Navigator)
    (atob : string → option string) : list Delivery :=
  match generatedImage s with
  | None => []
  | Some url =>
      if negb (truthy url) then []
      else
        let by_link := [link_click url "notebook-sketch.png"] in
        match share navigator with
        | None => by_link
        | Some share =>
            match dataURLtoFile atob url "notebook-sketch.png" with
            | Abrupt => by_link
            | Normal None => by_link
            | Normal (Some file) =>
                match canShare navigator with
                | None => by_link
                | Some canShare =>
                    if canShare file then
                      let call :=
                        navigator_share file "My Notebook Sketch"
                          "Check out this sketch created by NotebookSketch!" in
                      if share file then [call] else call :: by_link
                    else by_link
                end
            end
        end
  end.

(** [copyPrompt] of [part_001]: the text it writes to the clipboard. *)
Definition copyPrompt (s : State) : string := lastPrompt s.

(** ** The result panel *)

(** The three faces of the right panel. *)
Inductive ResultPanel :=
| ErrorPanel (msg : string)
| SketchPanel (url : string)
| Placeholder (preview : option string).

(** The conditional of the right panel: [part_001] asks for the error
    first, [part_000] shows the error under the button instead. *)
Definition result_panel (r : Revision) (s : State) : ResultPanel :=
  let sketch_or_placeholder :=
    match generatedImage s with
    | Some url =>
        if truthy url then SketchPanel url
        else Placeholder (if truthy_opt (selectedImage s) then selectedImage s else None)
    | None => Placeholder (if truthy_opt (selectedImage s) then selectedImage s else None)
    end in
  match r with
  | part_000 => sketch_or_placeholder
  | part_001 =>
      match error s with
      | Some msg => if truthy msg then ErrorPanel msg else sketch_or_placeholder
      | None => sketch_or_placeholder
      end
  end.

(** ** More words for the properties *)

(** The character occurs in the text. *)
Fixpoint occurs (c : ascii) (s : string) : bool :=
  match s with
  | EmptyString => false
  | String c' s' => Ascii.eqb c' c || occurs c s'
  end.

(** The requests a handler issues, in order. *)
Fixpoint requests (acts : list Action) : list GenerateContentParameters :=
  match acts with
  | [] => []
  | generateContent req :: rest => req :: requests rest
  | _ :: rest => requests rest
  end.

(** A handler writes only the cells of an attempt: the generated image, the
    busy flag, the error and the last prompt. *)
Definition writes_outputs_only (acts : list Action) : bool :=
  forallb (λ a, match a with
                | setGeneratedImage _ | setIsGenerating _ | setError _
                | setLastPrompt _ | generateContent _ => true
                | _ => false
                end) acts.

(** The character codes of a binary string. *)
Fixpoint char_codes (s : string) : list nat :=
  match s with
  | EmptyString => []
  | String c s' => nat_of_ascii c :: char_codes s'
  end.

(** The state with the cells of an attempt replaced. *)
Definition with_outputs (s : State) (gen : option string) (busy : bool)
    (err : option string) (last : string) : State :=
  mkState (selectedImage s) gen busy err (customText s) (paperType s) last
    (apiKey s).

(** The last prompt after an attempt that passed the guards. *)
Definition prompt_after (r : Revision) (s : State) : string :=
  match r with
  | part_000 => lastPrompt s
  | part_001 => prompt s
  end.

(** The [atob] of the browser on the one payload of the samples: [AAAA]
    decodes to three zero bytes; nothing else is asked of it. *)
Definition sample_atob (payload : string) : option string :=
  if String.eqb payload "AAAA"
  then Some (String zero (String zero (String zero EmptyString)))
  else None.

(** A page whose selected image is no data URL. *)
Definition blob_state : State :=
  {| selectedImage := Some "blob";
     generatedImage := None;
     isGenerating := false;
     error := None;
     customText := "HI";
     paperType := plain;
     lastPrompt := "";
     apiKey := "AIza-sample" |}.

(** A page that shows a sketch. *)
Definition sketch_state : State :=
  {| selectedImage := Some sample_image;
     generatedImage := Some "data:image/png;base64,AAAA";
     isGenerating := false;
     error := None;
     customText := "FESTIVAL, LOVE, FUN";
     paperType := lined;
     lastPrompt := "";
     apiKey := "AIza-sample" |}.

(** * Properties *)

(** ** Strings and replayed calls *)

Lemma truthy_includes (s sub : string) :
  includes s sub = true → truthy sub = true → truthy s = true.
Proof.
  destruct s as [|c s]; [|reflexivity].
  destruct sub; simpl; intros H Hsub; [discriminate Hsub | discriminate H].
Qed.

Lemma truthy_or_else (v : option string) (d : string) :
  truthy d = true → truthy (or_else v d) = true.
Proof.
  intros Hd. destruct v as [s|]; simpl; [|exact Hd].
  destruct (truthy s) eqn:Hs; [exact Hs | exact Hd].
Qed.

Lemma run_app (w : Page) (acts acts' : list Action) :
  run w (acts ++ acts') = run (run w acts) acts'.
Proof. apply fold_left_app. Qed.

Lemma run_cons (w : Page) (a : Action) (acts : list Action) :
  run w (a :: acts) = run (perform w a) acts.
Proof. reflexivity. Qed.

Lemma session_snoc (r : Revision) (w : Page) (evs : list Event) (ev : Event) :
  session r w (evs ++ [ev]) =
  run (session r w evs) (dispatch r (state (session r w evs)) ev).
Proof. unfold session. now rewrite fold_left_app. Qed.

(** ** The guards of [handleGenerate] *)

Lemma handleGenerate_no_image (r : Revision) (s : State)
    (api : GenerateContentParameters → Outcome) :
  truthy_opt (selectedImage s) = false → handleGenerate r s api = [].
Proof.
  intros H. destruct r; simpl;
    unfold Part000.handleGenerate, Part001.handleGenerate;
    destruct (selectedImage s) as [img|]; simpl in *; try reflexivity;
    now rewrite H.
Qed.

Lemma handleGenerate_no_key (r : Revision) (s : State)
    (api : GenerateContentParameters → Outcome) :
  truthy_opt (selectedImage s) = true → truthy (apiKey s) = false →
  handleGenerate r s api = [setError (Some msg_missing_key)].
Proof.
  intros Himg Hkey. destruct r; simpl;
    unfold Part000.handleGenerate, Part001.handleGenerate;
    destruct (selectedImage s) as [img|]; simpl in *; try discriminate;
    now rewrite Himg, Hkey.
Qed.

Lemma handleGenerate_past_guards (r : Revision) (s : State)
    (api : GenerateContentParameters → Outcome) (img : string) :
  selectedImage s = Some img → truthy img = true → truthy (apiKey s) = true →
  handleGenerate r s api =
  [setIsGenerating true; setError None; setGeneratedImage None] ++
  record_prompt r s ++
  try_catch_finally (try_block img (prompt s) api) (catch_block r)
    [setIsGenerating false].
Proof.
  intros Himg Ht Hkey. destruct r; simpl;
    unfold Part000.handleGenerate, Part001.handleGenerate;
    now rewrite Himg, Ht, Hkey.
Qed.

(** ** The body of [try] *)

(** A body that throws has issued the request and written nothing. *)
Lemma try_block_thrown (img p : string)
    (api : GenerateContentParameters → Outcome) (err : Thrown) :
  snd (try_block img p api) = Some err →
  fst (try_block img p api) = [generateContent (request_of img p)].
Proof.
  unfold try_block. destruct (api (request_of img p)) as [response|e];
    [|reflexivity].
  destruct (find_first_image response); [discriminate|].
  now destruct (truthy_opt (text response)).
Qed.

(** A body that runs to its end has found an image and stored its URL. *)
Lemma try_block_returned (img p : string)
    (api : GenerateContentParameters → Outcome) :
  snd (try_block img p api) = None →
  ∃ response url,
    api (request_of img p) = Resolved response ∧
    find_first_image response = Some url ∧
    fst (try_block img p api) =
      [generateContent (request_of img p); setGeneratedImage (Some url)].
Proof.
  unfold try_block. destruct (api (request_of img p)) as [response|e];
    [|discriminate].
  destruct (find_first_image response) as [url|] eqn:Hfind.
  - intros _. now exists response, url.
  - now destruct (truthy_opt (text response)).
Qed.

(** ** The handler of [catch] *)

(** Either text of the handler writes exactly one non-empty message. *)
Lemma catch_block_sets_error (r : Revision) (err : Thrown) :
  ∃ msg, catch_block r err = [setError (Some msg)] ∧ truthy msg = true.
Proof.
  destruct r; simpl; unfold Part000.catch_block, Part001.catch_block; cbv zeta.
  - destruct (_ || _ || _).
    + now exists msg_auth.
    + eexists; split; [reflexivity|]. now apply truthy_or_else.
  - destruct (_ || _ || _ || _); [now exists msg_auth|].
    destruct (_ || _ || _) eqn:Hdom; [|now exists msg_billing].
    eexists; split; [reflexivity|].
    apply orb_true_iff in Hdom as [Hdom|Hdom];
      [apply orb_true_iff in Hdom as [Hdom|Hdom]|];
      eapply truthy_includes; eauto.
Qed.

(** ** The session after an attempt *)

Section Attempt.

Variables (r : Revision) (s : State) (ls : gmap string string).
Variable api : GenerateContentParameters → Outcome.
Variable img : string.
Hypothesis Himg : selectedImage s = Some img.
Hypothesis Htruthy : truthy img = true.
Hypothesis Hkey : truthy (apiKey s) = true.

(** An attempt whose body throws ends with the message the handler of
    [catch] writes, no image, and the busy flag down. *)
Lemma attempt_failure (err : Thrown) (msg : string) :
  snd (try_block img (prompt s) api) = Some err →
  catch_block r err = [setError (Some msg)] →
  let s' := state (run (mkPage s ls) (handleGenerate r s api)) in
  generatedImage s' = None ∧ error s' = Some msg ∧ isGenerating s' = false.
Proof using Himg Htruthy Hkey.
  intros Hthrown Hcatch s'. subst s'.
  rewrite (handleGenerate_past_guards r s api img Himg Htruthy Hkey).
  unfold try_catch_finally.
  rewrite (try_block_thrown _ _ _ _ Hthrown), Hthrown, Hcatch.
  destruct r; repeat split.
Qed.

(** An attempt whose body runs to its end keeps the image and no error. *)
Lemma attempt_success (response : GenerateContentResponse) (url : string) :
  api (request_of img (prompt s)) = Resolved response →
  find_first_image response = Some url →
  let s' := state (run (mkPage s ls) (handleGenerate r s api)) in
  generatedImage s' = Some url ∧ error s' = None ∧ isGenerating s' = false.
Proof using Himg Htruthy Hkey.
  intros Hapi Hfind s'. subst s'.
  rewrite (handleGenerate_past_guards r s api img Himg Htruthy Hkey).
  unfold try_catch_finally, try_block. rewrite Hapi, Hfind.
  destruct r; repeat split.
Qed.

(** What the body throws, from what the API gave. *)
Lemma try_block_rejected (err : Thrown) :
  api (request_of img (prompt s)) = Rejected err →
  snd (try_block img (prompt s) api) = Some err.
Proof. intros Hapi. unfold try_block. now rewrite Hapi. Qed.

Lemma try_block_text (response : GenerateContentResponse) :
  api (request_of img (prompt s)) = Resolved response →
  find_first_image response = None →
  truthy_opt (text response) = true →
  snd (try_block img (prompt s) api) = Some (new_Error msg_text_instead).
Proof. intros Hapi Hfind Htext. unfold try_block. now rewrite Hapi, Hfind, Htext. Qed.

Lemma try_block_empty (response : GenerateContentResponse) :
  api (request_of img (prompt s)) = Resolved response →
  find_first_image response = None →
  truthy_opt (text response) = false →
  snd (try_block img (prompt s) api) = Some (new_Error msg_no_image).
Proof. intros Hapi Hfind Htext. unfold try_block. now rewrite Hapi, Hfind, Htext. Qed.

End Attempt.

(** The messages the two internal throws end as, in either text. *)
Lemma catch_block_text_instead (r : Revision) :
  catch_block r (new_Error msg_text_instead) = [setError (Some msg_text_instead)].
Proof. destruct r; vm_compute; reflexivity. Qed.

Lemma catch_block_no_image (r : Revision) :
  catch_block r (new_Error msg_no_image) = [setError (Some msg_no_image)].
Proof. destruct r; vm_compute; reflexivity. Qed.

(** The image URL of a found image is never empty. *)
Lemma find_image_truthy (ps : list Part) (url : string) :
  find_image ps = Some url → truthy url = true.
Proof.
  induction ps as [|part rest IH]; simpl; [discriminate|].
  destruct (has_image part) eqn:Hpart; [|exact IH].
  intros [= <-]. unfold has_image, data_url in *.
  now destruct (inlineData part).
Qed.

Lemma find_first_image_truthy (response : GenerateContentResponse) (url : string) :
  find_first_image response = Some url → truthy url = true.
Proof.
  unfold find_first_image. destruct (response_parts response); [|discriminate].
  apply find_image_truthy.
Qed.

(** C1, as amended.  A generation attempt that passed both guards and ran
    to its end leaves exactly one of the generated image and the error
    message set:
    when the response held an image, the image is set and the error is
    null; when the body threw (text only, or nothing) or the call failed,
    the error is a non-empty message and the image is null. *)
Theorem generate_image_xor_error
    (r : Revision) (s : State) (ls : gmap string string)
    (api : GenerateContentParameters → Outcome) (img : string) :
  selectedImage s = Some img → truthy img = true → truthy (apiKey s) = true →
  let s' := state (run (mkPage s ls) (handleGenerate r s api)) in
  (generatedImage s' = None ∨ error s' = None) ∧
  match api (request_of img (prompt s)) with
  | Resolved response =>
      match find_first_image response with
      | Some url =>
          generatedImage s' = Some url ∧ truthy url = true ∧ error s' = None
      | None =>
          generatedImage s' = None ∧
          ∃ msg, error s' = Some msg ∧ truthy msg = true
      end
  | Rejected err =>
      generatedImage s' = None ∧ ∃ msg, error s' = Some msg ∧ truthy msg = true
  end.
Proof.
  intros Himg Ht Hkey s'.
  assert (Hfail : ∀ err, snd (try_block img (prompt s) api) = Some err →
            generatedImage s' = None ∧
            ∃ msg, error s' = Some msg ∧ truthy msg = true).
  { intros err Herr.
    destruct (catch_block_sets_error r err) as (msg & Hcatch & Hmsg).
    destruct (attempt_failure r s ls api img Himg Ht Hkey err msg Herr Hcatch)
      as (Hgen & Herror & _).
    split; [exact Hgen | now exists msg]. }
  destruct (api (request_of img (prompt s))) as [response|err] eqn:Hapi.
  - destruct (find_first_image response) as [url|] eqn:Hfind.
    + destruct (attempt_success r s ls api img Himg Ht Hkey response url Hapi Hfind)
        as (Hgen & Herror & _).
      split; [now right|]. repeat split; try assumption.
      eapply find_first_image_truthy; eassumption.
    + destruct (truthy_opt (text response)) eqn:Htext.
      * destruct (Hfail _ (try_block_text s api img response Hapi Hfind Htext))
          as [Hgen Herror]. split; [now left | now split].
      * destruct (Hfail _ (try_block_empty s api img response Hapi Hfind Htext))
          as [Hgen Herror]. split; [now left | now split].
  - destruct (Hfail _ (try_block_rejected s api img err Hapi)) as [Hgen Herror].
    split; [now left | now split].
Qed.

(** An instance: a response whose second part carries the first image. *)
Lemma generate_image_xor_error_witness :
  let s' := state (run (mkPage ready_state ∅)
                     (handleGenerate part_001 ready_state
                        (always (Resolved image_response)))) in
  generatedImage s' = Some "data:image/png;base64,CCCC" ∧ error s' = None.
Proof.
  destruct (generate_image_xor_error part_001 ready_state ∅
              (always (Resolved image_response)) sample_image
              eq_refl eq_refl eq_refl) as [_ H].
  simpl in H. destruct H as (Hgen & _ & Herr). split; assumption.
Defined.

(** ** The two guards *)

(** C10.  With no source image selected (null, or the empty string, which
    is as falsy) the handler makes no call at all: no request, no setter,
    so the page after it is the page before it, error and busy flag
    included, whatever the credential is. *)
Theorem generate_without_image_is_noop
    (r : Revision) (s : State) (ls : gmap string string)
    (api : GenerateContentParameters → Outcome) :
  truthy_opt (selectedImage s) = false →
  handleGenerate r s api = [] ∧
  issues_request (handleGenerate r s api) = false ∧
  run (mkPage s ls) (handleGenerate r s api) = mkPage s ls.
Proof.
  intros H. rewrite (handleGenerate_no_image r s api H). now repeat split.
Qed.

(** An instance: the generate handler on the first render. *)
Lemma generate_without_image_is_noop_witness :
  handleGenerate part_000 blank_state (always (Resolved image_response)) = [] ∧
  error (state (run (mkPage blank_state ∅)
                  (handleGenerate part_000 blank_state
                     (always (Resolved image_response))))) = None.
Proof.
  destruct (generate_without_image_is_noop part_000 blank_state ∅
              (always (Resolved image_response)) eq_refl) as (Hnil & _ & Hrun).
  split; [exact Hnil | now rewrite Hrun].
Defined.

(** C2, as amended.  An attempt started with a source image selected and an
    empty credential issues no request: its only call is [setError] with the
    missing-credential message, and every other field stays as it was. *)
Theorem generate_without_key
    (r : Revision) (s : State) (ls : gmap string string)
    (api : GenerateContentParameters → Outcome) :
  truthy_opt (selectedImage s) = true → apiKey s = "" →
  let acts := handleGenerate r s api in
  issues_request acts = false ∧
  acts = [setError (Some msg_missing_key)] ∧
  state (run (mkPage s ls) acts) =
    mkState (selectedImage s) (generatedImage s) (isGenerating s)
      (Some msg_missing_key) (customText s) (paperType s) (lastPrompt s)
      (apiKey s).
Proof.
  intros Himg Hkey acts. subst acts.
  rewrite (handleGenerate_no_key r s api Himg); [|now rewrite Hkey].
  now repeat split.
Qed.

(** An instance: a photo chosen, the key field emptied. *)
Lemma generate_without_key_witness :
  error (state (run (mkPage keyless_state ∅)
                  (handleGenerate part_001 keyless_state
                     (always (Resolved image_response)))))
  = Some "Please enter your Gemini API Key first.".
Proof.
  destruct (generate_without_key part_001 keyless_state ∅
              (always (Resolved image_response)) eq_refl eq_refl)
    as (_ & _ & Hstate).
  now rewrite Hstate.
Defined.

(** C2, as stated, fails: with an empty credential and no source image the
    handler returns at its first guard and the error stays null. *)
Lemma generate_without_key_needs_image :
  ¬ (∀ (r : Revision) (s : State) (ls : gmap string string)
       (api : GenerateContentParameters → Outcome),
        apiKey s = "" →
        issues_request (handleGenerate r s api) = false ∧
        error (state (run (mkPage s ls) (handleGenerate r s api)))
        = Some msg_missing_key).
Proof.
  intros H.
  destruct (H part_001 blank_state ∅ (always (Resolved image_response)) eq_refl)
    as [_ Herr].
  discriminate Herr.
Qed.

(** The credential guard writes the error and nothing else: an image left
    by an earlier attempt stays beside the message. *)
Remark keyless_attempt_keeps_image :
  let s' := state (run (mkPage keyless_state ∅)
                     (handleGenerate part_001 keyless_state
                        (always (Resolved image_response)))) in
  generatedImage s' = Some "data:image/png;base64,OLD" ∧
  error s' = Some msg_missing_key.
Proof. split; reflexivity. Qed.

(** C1, as stated, fails at the credential guard.  A photo is chosen, a
    key typed, a sketch generated, the key field emptied; the next attempt
    is one the guard stops: it ends with the missing-credential message
    set and the earlier sketch still there, both non-null. *)
Lemma credential_guard_leaves_image_beside_error :
  let w := session part_001 (load ∅ None)
             [FileChosen (Some [mkFile (Some sample_image)]);
              KeyTyped "AIza-sample";
              GenerateClicked (always (Resolved image_response));
              KeyTyped ""] in
  let s' := state (run w (handleGenerate part_001 (state w)
                            (always (Resolved image_response)))) in
  selectedImage (state w) = Some sample_image ∧
  apiKey (state w) = "" ∧
  generatedImage s' = Some "data:image/png;base64,CCCC" ∧
  error s' = Some "Please enter your Gemini API Key first." ∧
  ¬ (generatedImage s' = None ∨ error s' = None).
Proof.
  cbv zeta. repeat split; try (vm_compute; reflexivity).
  intros [H|H]; vm_compute in H; discriminate H.
Qed.

(** ** Choosing a photo *)

(** C3.  When the reader of a chosen file finishes, the selected image is
    what it read, the generated image and the error are null whatever they
    were, and nothing else of the page changes. *)
Theorem upload_clears_output
    (s : State) (ls : gmap string string) (file : File) (others : list File) :
  run (mkPage s ls) (handleImageUpload (Some (file :: others))) =
  mkPage (mkState (reader_result file) None (isGenerating s) None
            (customText s) (paperType s) (lastPrompt s) (apiKey s)) ls.
Proof.
  unfold handleImageUpload, onloadend. rewrite !run_cons. reflexivity.
Qed.

(** ** Reading the response *)

(** The loop stops at the first part that carries an image: the parts
    before it carry none, and the parts after it are never looked at. *)
Lemma find_image_first (ps : list Part) :
  existsb has_image ps = true →
  ∃ before part after,
    ps = before ++ part :: after ∧
    forallb (λ p, negb (has_image p)) before = true ∧
    has_image part = true ∧
    find_image ps = Some (data_url part).
Proof.
  induction ps as [|p rest IH]; simpl; [discriminate|].
  destruct (has_image p) eqn:Hp.
  - intros _. now exists [], p, rest.
  - intros Hrest. destruct (IH Hrest) as (before & part & after & -> & Hb & Hi & Hf).
    exists (p :: before), part, after. simpl. now rewrite Hp.
Qed.

Lemma find_image_none (ps : list Part) :
  existsb has_image ps = false → find_image ps = None.
Proof.
  induction ps as [|p rest IH]; simpl; [reflexivity|].
  destruct (has_image p); [discriminate | exact IH].
Qed.

Lemma find_first_image_none (response : GenerateContentResponse) :
  image_bearing response = false → find_first_image response = None.
Proof.
  unfold image_bearing, find_first_image.
  destruct (response_parts response) as [ps|]; [apply find_image_none | reflexivity].
Qed.

(** A part that carries an image has inline data with a non-empty payload,
    and its URL is [data:], the MIME type of the part (or [image/png] when
    the part names none), [;base64,] and that payload. *)
Lemma has_image_inv (part : Part) :
  has_image part = true →
  ∃ blob d,
    inlineData part = Some blob ∧ data blob = Some d ∧ d ≠ "" ∧
    data_url part =
      "data:" +:+ match mimeType blob with
                  | Some (String c m) => String c m
                  | _ => "image/png"
                  end +:+ ";base64," +:+ d.
Proof.
  unfold has_image, data_url.
  destruct (inlineData part) as [blob|]; [|discriminate].
  destruct (data blob) as [d|] eqn:Hdata; [|discriminate].
  intros Hd. exists blob, d. rewrite Hdata.
  split; [reflexivity|]. split; [reflexivity|].
  split; [now destruct d|].
  now destruct (mimeType blob) as [[|c m]|].
Qed.

(** C4.  When the parts of the first candidate hold at least one part with
    inline image data, the attempt ends with the generated image set to the
    data URL of the first such part (no part before it carries an image;
    the parts after it play no role): [data:], then the MIME type of that
    part, or [image/png] when it names none, then [;base64,] and the data
    of that part.  The error is null and the busy flag is down. *)
Theorem generate_uses_first_image
    (r : Revision) (s : State) (ls : gmap string string)
    (api : GenerateContentParameters → Outcome) (img : string)
    (response : GenerateContentResponse) (ps : list Part) :
  selectedImage s = Some img → truthy img = true → truthy (apiKey s) = true →
  api (request_of img (prompt s)) = Resolved response →
  response_parts response = Some ps →
  existsb has_image ps = true →
  ∃ before part after blob d,
    ps = before ++ part :: after ∧
    forallb (λ p, negb (has_image p)) before = true ∧
    has_image part = true ∧
    inlineData part = Some blob ∧ data blob = Some d ∧ d ≠ "" ∧
    let s' := state (run (mkPage s ls) (handleGenerate r s api)) in
    generatedImage s' =
      Some ("data:" +:+ match mimeType blob with
                        | Some (String c m) => String c m
                        | _ => "image/png"
                        end +:+ ";base64," +:+ d) ∧
    error s' = None ∧
    isGenerating s' = false.
Proof.
  intros Himg Ht Hkey Hapi Hparts Hsome.
  destruct (find_image_first ps Hsome) as (before & part & after & Hps & Hb & Hi & Hf).
  assert (Hfirst : find_first_image response = Some (data_url part))
    by (unfold find_first_image; now rewrite Hparts).
  destruct (attempt_success r s ls api img Himg Ht Hkey response _ Hapi Hfirst)
    as (Hgen & Herr & Hbusy).
  destruct (has_image_inv part Hi) as (blob & d & Hblob & Hdata & Hd & Hurl).
  exists before, part, after, blob, d. rewrite <- Hurl.
  repeat split; assumption.
Qed.

(** An instance: of two image parts after a text part, the first is taken,
    with the MIME type it names. *)
Lemma generate_uses_first_image_witness :
  let s' := state (run (mkPage ready_state ∅)
                     (handleGenerate part_000 ready_state
                        (always (Resolved jpeg_response)))) in
  generatedImage s' = Some "data:image/jpeg;base64,DDDD" ∧ error s' = None.
Proof.
  destruct (generate_uses_first_image part_000 ready_state ∅
              (always (Resolved jpeg_response)) sample_image jpeg_response
              [text_part; jpeg_part; png_part]
              eq_refl eq_refl eq_refl eq_refl eq_refl eq_refl)
    as (before & part & after & blob & d & Hps & Hb & Hi & Hblob & Hdata & _
        & Hgen & Herr & _).
  assert (Hpart : part = jpeg_part).
  { destruct before as [|p0 [|p1 before]]; simpl in Hps.
    - injection Hps as <- _. discriminate Hi.
    - now injection Hps as _ <- _.
    - injection Hps as <- <- _. discriminate Hb. }
  subst part. injection Hblob as <-. injection Hdata as <-.
  split; [exact Hgen | exact Herr].
Defined.

(** C5.  A response with no image-bearing part but with text ends the
    attempt with the text-instead-of-image message as the error and no
    generated image. *)
Theorem text_response_sets_text_error
    (r : Revision) (s : State) (ls : gmap string string)
    (api : GenerateContentParameters → Outcome) (img : string)
    (response : GenerateContentResponse) :
  selectedImage s = Some img → truthy img = true → truthy (apiKey s) = true →
  api (request_of img (prompt s)) = Resolved response →
  image_bearing response = false →
  truthy_opt (text response) = true →
  let s' := state (run (mkPage s ls) (handleGenerate r s api)) in
  generatedImage s' = None ∧
  error s' = Some "The AI returned text instead of an image. It might have misunderstood the prompt or triggered a safety filter." ∧
  isGenerating s' = false.
Proof.
  intros Himg Ht Hkey Hapi Hnone Htext.
  apply (attempt_failure r s ls api img Himg Ht Hkey
           (new_Error msg_text_instead)).
  - apply (try_block_text s api img response Hapi); [|exact Htext].
    now apply find_first_image_none.
  - apply catch_block_text_instead.
Qed.

(** An instance: a response of one text part. *)
Lemma text_response_sets_text_error_witness :
  error (state (run (mkPage ready_state ∅)
                  (handleGenerate part_001 ready_state
                     (always (Resolved text_response)))))
  = Some msg_text_instead.
Proof.
  exact (proj1 (proj2 (text_response_sets_text_error part_001 ready_state ∅
           (always (Resolved text_response)) sample_image text_response
           eq_refl eq_refl eq_refl eq_refl eq_refl eq_refl))).
Defined.

(** C6.  A response with neither an image-bearing part nor text ends the
    attempt with the no-image message as the error and no generated
    image. *)
Theorem empty_response_sets_no_image_error
    (r : Revision) (s : State) (ls : gmap string string)
    (api : GenerateContentParameters → Outcome) (img : string)
    (response : GenerateContentResponse) :
  selectedImage s = Some img → truthy img = true → truthy (apiKey s) = true →
  api (request_of img (prompt s)) = Resolved response →
  image_bearing response = false →
  truthy_opt (text response) = false →
  let s' := state (run (mkPage s ls) (handleGenerate r s api)) in
  generatedImage s' = None ∧
  error s' = Some "No image was generated. Please try again with a different photo." ∧
  isGenerating s' = false.
Proof.
  intros Himg Ht Hkey Hapi Hnone Htext.
  apply (attempt_failure r s ls api img Himg Ht Hkey (new_Error msg_no_image)).
  - apply (try_block_empty s api img response Hapi); [|exact Htext].
    now apply find_first_image_none.
  - apply catch_block_no_image.
Qed.

(** An instance: a response with no candidate. *)
Lemma empty_response_sets_no_image_error_witness :
  error (state (run (mkPage ready_state ∅)
                  (handleGenerate part_000 ready_state
                     (always (Resolved empty_response)))))
  = Some msg_no_image.
Proof.
  exact (proj1 (proj2 (empty_response_sets_no_image_error part_000 ready_state ∅
           (always (Resolved empty_response)) sample_image empty_response
           eq_refl eq_refl eq_refl eq_refl eq_refl eq_refl))).
Defined.

(** ** Caught failures *)

Lemma prefix_trans (p m s : string) :
  String.prefix p m = true → String.prefix m s = true → String.prefix p s = true.
Proof.
  revert m s. induction p as [|c p IH]; intros m s; [now destruct s|].
  destruct m as [|c1 m]; [discriminate|]. destruct s as [|c2 s]; [now destruct c1|].
  simpl. destruct (Ascii.ascii_dec c c1) as [->|]; [|discriminate].
  destruct (Ascii.ascii_dec c1 c2) as [->|]; [|discriminate].
  apply IH.
Qed.

Lemma includes_cons (c : ascii) (s p : string) :
  includes s p = true → includes (String c s) p = true.
Proof. intros H. cbn [includes]. rewrite H. apply orb_true_r. Qed.

Lemma prefix_includes (m s p : string) :
  String.prefix m s = true → includes m p = true → includes s p = true.
Proof.
  revert s. induction m as [|c m IH]; intros s Hms Hmp.
  - destruct p; [|discriminate Hmp]. now destruct s.
  - destruct s as [|c' s]; [discriminate Hms|].
    cbn [includes] in Hmp. apply orb_true_iff in Hmp as [Hpre|Hin].
    + cbn [includes]. now rewrite (prefix_trans _ _ _ Hpre Hms).
    + apply includes_cons. apply IH; [|exact Hin].
      simpl in Hms. now destruct (Ascii.ascii_dec c c').
Qed.

(** A phrase of a text that occurs in another text occurs there too. *)
Lemma includes_trans (s m p : string) :
  includes s m = true → includes m p = true → includes s p = true.
Proof.
  induction s as [|c s IH]; cbn [includes]; intros Hsm Hmp.
  - rewrite orb_false_r in Hsm. rewrite orb_false_r.
    destruct m; [|discriminate Hsm].
    cbn [includes] in Hmp. now rewrite orb_false_r in Hmp.
  - apply orb_true_iff in Hsm as [Hpre|Hin].
    + exact (prefix_includes _ _ _ Hpre Hmp).
    + rewrite (IH Hin Hmp). apply orb_true_r.
Qed.

(** C7, as amended.  A failure caught by an attempt ends as follows.  In
    [part_001]: the authentication message when its string form has
    [401], [403] or [API key], or its message has [API key]; else its own
    message when that signals a missing image or a safety filter; else the
    billing hint.  In [part_000]: the authentication message when its
    string form has one of the three phrases; else its own message, or the
    try-a-different-photo message when it has none.  Either way the
    generated image is null and the busy flag is down. *)
Theorem caught_failure_classified
    (r : Revision) (s : State) (ls : gmap string string)
    (api : GenerateContentParameters → Outcome) (img : string) (err : Thrown) :
  selectedImage s = Some img → truthy img = true → truthy (apiKey s) = true →
  snd (try_block img (prompt s) api) = Some err →
  let s' := state (run (mkPage s ls) (handleGenerate r s api)) in
  let m := or_else (message err) "" in
  generatedImage s' = None ∧
  isGenerating s' = false ∧
  error s' =
    Some match r with
         | part_001 =>
             if mentions_credential (toString err) || includes m "API key"
             then "Authentication failed. Please check your API key."
             else if signals_domain m then m
             else msg_billing
         | part_000 =>
             if mentions_credential (toString err)
             then "Authentication failed. Please check your API key."
             else or_else (message err)
                    "Failed to generate sketch. Please try a different photo."
         end.
Proof.
  intros Himg Ht Hkey Hthrown s' m.
  assert (Hcatch : ∃ msg, catch_block r err = [setError (Some msg)] ∧
            msg = match r with
                  | part_001 =>
                      if mentions_credential (toString err) || includes m "API key"
                      then msg_auth
                      else if signals_domain m then m else msg_billing
                  | part_000 =>
                      if mentions_credential (toString err) then msg_auth
                      else or_else (message err) msg_failed
                  end).
  { subst m. unfold mentions_credential, signals_domain.
    destruct r; simpl; unfold Part000.catch_block, Part001.catch_block; cbv zeta.
    - destruct (_ || _ || _); eexists; split; reflexivity.
    - destruct (_ || _ || _ || _); [eexists; split; reflexivity|].
      destruct (_ || _ || _); eexists; split; reflexivity. }
  destruct Hcatch as (msg & Hcatch & ->).
  destruct (attempt_failure r s ls api img Himg Ht Hkey err _ Hthrown Hcatch)
    as (Hgen & Herr & Hbusy).
  repeat split; assumption.
Qed.

(** An instance: a failed fetch in [part_001] ends as the billing hint. *)
Lemma caught_failure_classified_witness :
  error (state (run (mkPage ready_state ∅)
                  (handleGenerate part_001 ready_state
                     (always (Rejected fetch_error)))))
  = Some msg_billing.
Proof.
  exact (proj2 (proj2 (caught_failure_classified part_001 ready_state ∅
           (always (Rejected fetch_error)) sample_image fetch_error
           eq_refl eq_refl eq_refl eq_refl))).
Defined.

(** C7, as stated, fails in [part_000]: a failed fetch names no credential
    phrase and signals no domain error, and the error it leaves is its own
    message, not the billing hint. *)
Lemma fetch_failure_keeps_its_message :
  let m := or_else (message fetch_error) "" in
  let s' := state (run (mkPage ready_state ∅)
                     (handleGenerate part_000 ready_state
                        (always (Rejected fetch_error)))) in
  mentions_credential (toString fetch_error) = false ∧
  mentions_credential m = false ∧
  signals_domain m = false ∧
  error s' = Some "Failed to fetch" ∧
  error s' ≠ Some msg_billing.
Proof. repeat split; try (vm_compute; reflexivity). discriminate. Qed.

(** In [part_001] the message is searched for [API key] only: a status
    that shows in the message and not in the string form is not read as a
    credential failure. *)
Example status_in_message_only :
  mentions_credential (or_else (message status_object) "") = true ∧
  catch_block part_001 status_object = [setError (Some msg_billing)].
Proof. split; vm_compute; reflexivity. Qed.

(** An [Error] object shows its message in its string form; for such a
    failure the search of [part_001] finds in the string form every
    credential phrase the message has. *)
Lemma error_object_credential (err : Thrown) :
  includes (toString err) (or_else (message err) "") = true →
  mentions_credential (toString err)
  || includes (or_else (message err) "") "API key"
  = mentions_credential (toString err)
    || mentions_credential (or_else (message err) "").
Proof.
  intros Hshown. unfold mentions_credential.
  set (m := or_else (message err) "") in *. set (t := toString err) in *.
  assert (Hsub : ∀ p, includes m p = true → includes t p = true)
    by (intros p; now apply includes_trans).
  destruct (includes m "401") eqn:H1; [rewrite (Hsub _ H1); reflexivity|].
  destruct (includes m "403") eqn:H2;
    [rewrite (Hsub _ H2); now rewrite !orb_true_r|].
  reflexivity.
Qed.

(** ** The busy flag *)

Lemma writes_busy_app (acts acts' : list Action) :
  writes_busy (acts ++ acts') = writes_busy acts || writes_busy acts'.
Proof. apply existsb_app. Qed.

Lemma issues_request_app (acts acts' : list Action) :
  issues_request (acts ++ acts') = issues_request acts || issues_request acts'.
Proof. apply existsb_app. Qed.

(** Calls other than [setIsGenerating] leave the flag where it is, at every
    page they pass through. *)
Lemma trace_quiet (acts : list Action) (w : Page) :
  writes_busy acts = false →
  Forall (λ w', isGenerating (state w') = isGenerating (state w)) (trace w acts) ∧
  isGenerating (state (run w acts)) = isGenerating (state w).
Proof.
  revert w. induction acts as [|a acts IH]; intros w Hquiet.
  - split; [constructor | reflexivity].
  - simpl in Hquiet. apply orb_false_iff in Hquiet as [Ha Hacts].
    cbn [trace].
    assert (Hstep : isGenerating (state (perform w a)) = isGenerating (state w))
      by (destruct a; try reflexivity; discriminate Ha).
    destruct (IH (perform w a) Hacts) as [Htrace Hrun].
    rewrite run_cons, Hrun. split; [|exact Hstep].
    constructor; [exact Hstep|].
    eapply Forall_impl; [exact Htrace|]. simpl. intros w' ->. exact Hstep.
Qed.

(** The body of [try] calls the API first and never touches the flag. *)
Lemma try_block_calls (img p : string)
    (api : GenerateContentParameters → Outcome) :
  ∃ rest, fst (try_block img p api) = generateContent (request_of img p) :: rest ∧
          writes_busy rest = false.
Proof.
  unfold try_block. destruct (api (request_of img p)) as [response|err].
  - destruct (find_first_image response) as [url|].
    + now exists [setGeneratedImage (Some url)].
    + destruct (truthy_opt (text response)); now exists [].
  - now exists [].
Qed.

Lemma guards_pass_inv (s : State) :
  guards_pass s = true →
  ∃ img, selectedImage s = Some img ∧ truthy img = true ∧ truthy (apiKey s) = true.
Proof.
  unfold guards_pass. intros H. apply andb_true_iff in H as [Himg Hkey].
  destruct (selectedImage s) as [img|]; [|discriminate Himg].
  now exists img.
Qed.

(** Past the guards the handler raises the flag first, lowers it last, and
    writes it nowhere in between; the request falls in between. *)
Lemma handleGenerate_bracket (r : Revision) (s : State)
    (api : GenerateContentParameters → Outcome) :
  guards_pass s = true →
  ∃ mid, handleGenerate r s api =
           setIsGenerating true :: mid ++ [setIsGenerating false] ∧
         writes_busy mid = false ∧
         issues_request mid = true.
Proof.
  intros Hpass. destruct (guards_pass_inv s Hpass) as (img & Himg & Ht & Hkey).
  rewrite (handleGenerate_past_guards r s api img Himg Ht Hkey).
  unfold try_catch_finally.
  destruct (try_block_calls img (prompt s) api) as (rest & -> & Hrest).
  set (handled := match snd (try_block img (prompt s) api) with
                  | Some err => catch_block r err
                  | None => []
                  end).
  assert (Hhandled : writes_busy handled = false).
  { subst handled. destruct (snd (try_block img (prompt s) api)) as [err|];
      [|reflexivity].
    now destruct (catch_block_sets_error r err) as (msg & -> & _). }
  exists ([setError None; setGeneratedImage None] ++ record_prompt r s ++
          (generateContent (request_of img (prompt s)) :: rest) ++ handled).
  split; [|split].
  - destruct r; simpl; now rewrite <- app_assoc.
  - rewrite !writes_busy_app. simpl. rewrite Hrest, Hhandled. now destruct r.
  - rewrite !issues_request_app. simpl. now rewrite orb_true_r.
Qed.

(** Short of the guards the handler never writes the flag and never calls
    the API. *)
Lemma handleGenerate_refused (r : Revision) (s : State)
    (api : GenerateContentParameters → Outcome) :
  guards_pass s = false →
  writes_busy (handleGenerate r s api) = false ∧
  issues_request (handleGenerate r s api) = false.
Proof.
  unfold guards_pass. intros Hfail.
  destruct (truthy_opt (selectedImage s)) eqn:Himg.
  - simpl in Hfail. now rewrite (handleGenerate_no_key r s api Himg Hfail).
  - now rewrite (handleGenerate_no_image r s api Himg).
Qed.

(** One run of the handler from a page whose flag is down. *)
Lemma busy_while_in_flight (r : Revision) (w : Page)
    (api : GenerateContentParameters → Outcome) :
  isGenerating (state w) = false →
  let acts := handleGenerate r (state w) api in
  isGenerating (state (run w acts)) = false ∧
  if guards_pass (state w) then
    ∃ mid, acts = setIsGenerating true :: mid ++ [setIsGenerating false] ∧
           writes_busy mid = false ∧
           issues_request mid = true ∧
           Forall (λ w', isGenerating (state w') = true)
             (trace w (setIsGenerating true :: mid))
  else
    writes_busy acts = false ∧
    issues_request acts = false ∧
    Forall (λ w', isGenerating (state w') = false) (trace w acts).
Proof.
  intros Hidle acts. subst acts.
  destruct (guards_pass (state w)) eqn:Hpass.
  - destruct (handleGenerate_bracket r (state w) api Hpass)
      as (mid & -> & Hquiet & Hreq).
    destruct (trace_quiet mid (perform w (setIsGenerating true)) Hquiet)
      as [Htrace _].
    split.
    + rewrite run_cons, run_app. reflexivity.
    + exists mid. repeat split; try assumption.
      simpl. constructor; [reflexivity | exact Htrace].
  - destruct (handleGenerate_refused r (state w) api Hpass) as [Hquiet Hreq].
    destruct (trace_quiet _ w Hquiet) as [Htrace Hrun].
    rewrite Hidle in Htrace, Hrun. now repeat split.
Qed.

(** Every handler run to its end leaves the flag down if it found it down. *)
Lemma dispatch_idle (r : Revision) (w : Page) (ev : Event) :
  isGenerating (state w) = false →
  isGenerating (state (run w (dispatch r (state w) ev))) = false.
Proof.
  intros Hidle.
  assert (Hquiet : ∀ acts, writes_busy acts = false →
            isGenerating (state (run w acts)) = false).
  { intros acts H. destruct (trace_quiet acts w H) as [_ Hrun]. congruence. }
  destruct ev as [files|p|t|newKey|api|]; cbn [dispatch].
  - apply Hquiet. now destruct files as [[|file others]|].
  - now apply Hquiet.
  - now apply Hquiet.
  - apply Hquiet. unfold handleApiKeyChange.
    destruct (error (state w)) as [e|]; [|reflexivity].
    now destruct (truthy e && _).
  - destruct (negb _ || _); [exact Hidle|].
    apply (busy_while_in_flight r w api Hidle).
  - now apply Hquiet.
Qed.

Lemma session_idle (r : Revision) (evs : list Event) (w : Page) :
  isGenerating (state w) = false →
  isGenerating (state (session r w evs)) = false.
Proof.
  revert w. induction evs as [|ev evs IH]; intros w Hidle; [exact Hidle|].
  simpl. apply IH. now apply dispatch_idle.
Qed.

(** C8.  On any page reached from a page load by the controls, the busy
    flag is down; a run of the generation handler from there keeps it down
    throughout when a guard stops it (no request either), and otherwise
    raises it with its first call, keeps it up at every page until its last
    call (the request falls in between), and lowers it with that last call,
    whatever the API answers. *)
Theorem busy_flag_interval
    (r : Revision) (ls : gmap string string) (env_API_KEY : option string)
    (evs : list Event) (api : GenerateContentParameters → Outcome) :
  let w := session r (load ls env_API_KEY) evs in
  let acts := handleGenerate r (state w) api in
  isGenerating (state w) = false ∧
  isGenerating (state (run w acts)) = false ∧
  if guards_pass (state w) then
    ∃ mid, acts = setIsGenerating true :: mid ++ [setIsGenerating false] ∧
           writes_busy mid = false ∧
           issues_request mid = true ∧
           Forall (λ w', isGenerating (state w') = true)
             (trace w (setIsGenerating true :: mid))
  else
    writes_busy acts = false ∧
    issues_request acts = false ∧
    Forall (λ w', isGenerating (state w') = false) (trace w acts).
Proof.
  intros w acts.
  assert (Hidle : isGenerating (state w) = false)
    by (subst w; now apply session_idle).
  split; [exact Hidle|]. exact (busy_while_in_flight r w api Hidle).
Qed.

(** ** The stored credential *)

Lemma writes_credential_app (acts acts' : list Action) :
  writes_credential (acts ++ acts') =
  writes_credential acts || writes_credential acts'.
Proof. apply existsb_app. Qed.

(** Calls other than [setApiKey] and [localStorage.setItem] leave the
    credential and the store as they are. *)
Lemma run_keeps_credential (acts : list Action) (w : Page) :
  writes_credential acts = false →
  apiKey (state (run w acts)) = apiKey (state w) ∧
  localStorage (run w acts) = localStorage w.
Proof.
  revert w. induction acts as [|a acts IH]; intros w Hquiet; [now split|].
  simpl in Hquiet. apply orb_false_iff in Hquiet as [Ha Hacts].
  rewrite run_cons. destruct (IH (perform w a) Hacts) as [-> ->].
  destruct a; try discriminate Ha; now split.
Qed.

Lemma handleGenerate_keeps_credential (r : Revision) (s : State)
    (api : GenerateContentParameters → Outcome) :
  writes_credential (handleGenerate r s api) = false.
Proof.
  destruct (guards_pass s) eqn:Hpass.
  - destruct (guards_pass_inv s Hpass) as (img & Himg & Ht & Hkey).
    rewrite (handleGenerate_past_guards r s api img Himg Ht Hkey).
    unfold try_catch_finally, try_block.
    rewrite !writes_credential_app.
    assert (Hprompt : writes_credential (record_prompt r s) = false)
      by now destruct r.
    assert (Hcatch : ∀ err, writes_credential (catch_block r err) = false).
    { intros err. now destruct (catch_block_sets_error r err) as (msg & -> & _). }
    rewrite Hprompt.
    destruct (api _) as [response|err]; simpl; [|now rewrite Hcatch].
    destruct (find_first_image response); [reflexivity|].
    destruct (truthy_opt (text response)); simpl; now rewrite Hcatch.
  - unfold guards_pass in Hpass.
    destruct (truthy_opt (selectedImage s)) eqn:Himg.
    + simpl in Hpass. now rewrite (handleGenerate_no_key r s api Himg Hpass).
    + now rewrite (handleGenerate_no_image r s api Himg).
Qed.

(** An edit leaves the typed key in the cell and under the fixed name. *)
Lemma handleApiKeyChange_stores (w : Page) (newKey : string) :
  let edited := run w (handleApiKeyChange (state w) newKey) in
  apiKey (state edited) = newKey ∧
  localStorage edited !! storage_key = Some newKey.
Proof.
  unfold handleApiKeyChange. rewrite run_app.
  set (clear := match error (state w) with
                | Some e => _
                | None => _
                end).
  assert (Hclear : writes_credential clear = false).
  { subst clear. destruct (error (state w)) as [e|]; [|reflexivity].
    now destruct (truthy e && _). }
  destruct (run_keeps_credential clear
              (run w [setApiKey newKey; localStorage_setItem storage_key newKey])
              Hclear) as [-> ->].
  split; [reflexivity|]. simpl. apply lookup_insert_eq.
Qed.

(** What a page load reads: the stored key when it is a non-empty string,
    else the build-time key, else the empty string. *)
Lemma initialApiKey_read (ls : gmap string string) (env_API_KEY : option string)
    (k : string) :
  ls !! storage_key = Some k →
  initialApiKey ls env_API_KEY = if truthy k then k else or_else env_API_KEY "".
Proof.
  intros Hk. unfold initialApiKey, or_opt. rewrite Hk. simpl.
  destruct (truthy k) eqn:Htruthy; [simpl; now rewrite Htruthy | reflexivity].
Qed.

(** Along a visit, the store either holds the credential of the page under
    the fixed name, or is still the store the page was loaded over. *)
Lemma session_credential (r : Revision) (ls : gmap string string)
    (env_API_KEY : option string) (evs : list Event) :
  let w := session r (load ls env_API_KEY) evs in
  localStorage w !! storage_key = Some (apiKey (state w)) ∨
  (localStorage w = ls ∧ apiKey (state w) = initialApiKey ls env_API_KEY).
Proof.
  induction evs as [|ev evs IH] using rev_ind; [now right|].
  rewrite session_snoc. set (w := session r (load ls env_API_KEY) evs) in *.
  cbv zeta in IH.
  assert (Hkeep : ∀ acts, writes_credential acts = false →
            localStorage (run w acts) !! storage_key
              = Some (apiKey (state (run w acts))) ∨
            (localStorage (run w acts) = ls ∧
             apiKey (state (run w acts)) = initialApiKey ls env_API_KEY)).
  { intros acts H. now destruct (run_keeps_credential acts w H) as [-> ->]. }
  destruct ev as [files|p|t|newKey|api|]; cbn [dispatch].
  - apply Hkeep. now destruct files as [[|file others]|].
  - now apply Hkeep.
  - now apply Hkeep.
  - left. destruct (handleApiKeyChange_stores w newKey) as [-> ->]. reflexivity.
  - apply Hkeep. destruct (negb _ || _); [reflexivity|].
    apply handleGenerate_keeps_credential.
  - now apply Hkeep.
Qed.

(** C9.  The credential goes through the store under the fixed name
    [gemini_api_key].  On any page reached from a page load by the
    controls: an edit leaves the typed key in the cell and under that name;
    a load reads that name first, then the build-time key, then the empty
    string; and the page loaded over the store left behind starts with
    every cell fresh except the credential, which is the one the page had
    (when the page had none, the build-time key or the empty string). *)
Theorem credential_round_trip
    (r : Revision) (ls : gmap string string) (env_API_KEY : option string)
    (evs : list Event) (newKey : string) :
  let w := session r (load ls env_API_KEY) evs in
  let edited := run w (handleApiKeyChange (state w) newKey) in
  (apiKey (state edited) = newKey ∧
   localStorage edited !! "gemini_api_key" = Some newKey) ∧
  apiKey (state (load ls env_API_KEY)) =
    match ls !! "gemini_api_key" with
    | Some k => if truthy k then k else or_else env_API_KEY ""
    | None => or_else env_API_KEY ""
    end ∧
  state (load (localStorage w) env_API_KEY) =
    mkState None None false None "FESTIVAL, LOVE, FUN" lined ""
      (if truthy (apiKey (state w)) then apiKey (state w)
       else or_else env_API_KEY "") ∧
  apiKey (state (load (localStorage edited) env_API_KEY)) =
    if truthy newKey then newKey else or_else env_API_KEY "".
Proof.
  intros w edited. split; [|split; [|split]].
  - apply handleApiKeyChange_stores.
  - simpl. destruct (ls !! "gemini_api_key") as [k|] eqn:Hk.
    + now apply initialApiKey_read.
    + unfold initialApiKey, or_opt, storage_key. now rewrite Hk.
  - unfold load, initialState. simpl. f_equal.
    destruct (session_credential r ls env_API_KEY evs) as [Hstored|[Hsame Hinit]];
      fold w in Hstored || fold w in Hsame, Hinit.
    + now apply initialApiKey_read.
    + rewrite Hsame, Hinit.
      destruct (truthy (initialApiKey ls env_API_KEY)) eqn:Htruthy;
        [reflexivity|].
      revert Htruthy. unfold initialApiKey, or_opt.
      destruct (truthy_opt (ls !! storage_key)) eqn:Hstored; [|reflexivity].
      destruct (ls !! storage_key) as [k|]; [|discriminate Hstored].
      simpl in *. rewrite Hstored. congruence.
  - destruct (handleApiKeyChange_stores w newKey) as [_ Hstored].
    now apply initialApiKey_read.
Qed.

(** The emptied key field is stored as the empty string, which a load
    passes over for the build-time key. *)
Example emptied_credential_reloads_env :
  let edited := run (mkPage ready_state ∅)
                  (handleApiKeyChange ready_state "") in
  localStorage edited !! "gemini_api_key" = Some "" ∧
  apiKey (state (load (localStorage edited) (Some "AIza-build"))) = "AIza-build" ∧
  apiKey (state (load (localStorage edited) None)) = "".
Proof. repeat split; vm_compute; reflexivity. Qed.

(** * Further properties of the handlers *)

(** ** Cutting a data URL *)

Lemma append_cons (c : ascii) (a b : string) :
  String c a +:+ b = String c (a +:+ b).
Proof. reflexivity. Qed.

Lemma string_append_assoc (a b c : string) :
  (a +:+ b) +:+ c = a +:+ (b +:+ c).
Proof.
  induction a as [|x a IH]; [reflexivity|].
  rewrite !append_cons. now f_equal.
Qed.

Lemma occurs_append (c : ascii) (a b : string) :
  occurs c (a +:+ b) = occurs c a || occurs c b.
Proof.
  induction a as [|c' a IH]; [reflexivity|].
  rewrite append_cons. simpl. now rewrite IH, orb_assoc.
Qed.

(** A text without the separator is one piece. *)
Lemma split_no_sep (sep : ascii) (s : string) :
  occurs sep s = false → split sep s = [s].
Proof.
  induction s as [|c s IH]; [reflexivity|].
  simpl. intros H. apply orb_false_iff in H as [Hc Hs].
  now rewrite Hc, (IH Hs).
Qed.

(** The first piece ends at the first separator. *)
Lemma split_app_sep (sep : ascii) (a b : string) :
  occurs sep a = false →
  split sep (a +:+ String sep b) = a :: split sep b.
Proof.
  induction a as [|c a IH].
  - intros _. change ("" +:+ String sep b) with (String sep b).
    simpl. now rewrite Ascii.eqb_refl.
  - rewrite append_cons. simpl. intros H. apply orb_false_iff in H as [Hc Ha].
    now rewrite Hc, (IH Ha).
Qed.

(** X1.  From a selected image of the form
    [data:<mime>;base64,<payload>], where the MIME type has no comma,
    semicolon or colon and the payload no comma, the request carries
    exactly that MIME type and that payload, beside the model name and the
    prompt. *)
Theorem request_of_data_url (mime payload p : string) :
  occurs "," mime = false → occurs ";" mime = false →
  occurs ":" mime = false → occurs "," payload = false →
  request_of ("data:" +:+ mime +:+ ";base64," +:+ payload) p =
  mkRequest "gemini-2.5-flash-image" p (Some mime) (Some payload).
Proof.
  intros Hcomma Hsemi Hcolon Hpayload. unfold request_of.
  assert (Hcut : split "," ("data:" +:+ mime +:+ ";base64," +:+ payload)
                 = ("data:" +:+ mime +:+ ";base64") :: [payload]).
  { replace ("data:" +:+ mime +:+ ";base64," +:+ payload)
      with (("data:" +:+ mime +:+ ";base64") +:+ String "," payload)
      by (rewrite !string_append_assoc; reflexivity).
    rewrite split_app_sep, (split_no_sep _ _ Hpayload); [reflexivity|].
    rewrite !occurs_append, Hcomma. reflexivity. }
  assert (Hhead : ∃ rest, split ";" ("data:" +:+ mime +:+ ";base64," +:+ payload)
                          = ("data:" +:+ mime) :: rest).
  { replace ("data:" +:+ mime +:+ ";base64," +:+ payload)
      with (("data:" +:+ mime) +:+ String ";" ("base64," +:+ payload))
      by (rewrite !string_append_assoc; reflexivity).
    rewrite split_app_sep; [now eexists|].
    rewrite occurs_append, Hsemi. reflexivity. }
  destruct Hhead as [rest Hhead].
  rewrite Hcut, Hhead. cbn [at_index lookup list_lookup].
  replace ("data:" +:+ mime) with ("data" +:+ String ":" mime) by reflexivity.
  rewrite split_app_sep by reflexivity.
  now rewrite (split_no_sep _ _ Hcolon).
Qed.

(** An instance: the sample image. *)
Lemma request_of_data_url_witness :
  request_of sample_image "p" =
  mkRequest "gemini-2.5-flash-image" "p" (Some "image/png") (Some "AAAA").
Proof.
  exact (request_of_data_url "image/png" "AAAA" "p"
           eq_refl eq_refl eq_refl eq_refl).
Defined.

(** ** One attempt, one request *)

Lemma requests_app (acts acts' : list Action) :
  requests (acts ++ acts') = requests acts ++ requests acts'.
Proof.
  induction acts as [|a acts IH]; [reflexivity|].
  destruct a; simpl; now rewrite ?IH.
Qed.

Lemma find_image_some (ps : list Part) (url : string) :
  find_image ps = Some url →
  ∃ part, has_image part = true ∧ url = data_url part.
Proof.
  induction ps as [|p rest IH]; simpl; [discriminate|].
  destruct (has_image p) eqn:Hp; [|exact IH].
  intros [= <-]. now exists p.
Qed.

(** The page after an attempt that passed the guards: only the cells of
    the attempt differ; the busy flag is down; the image is the data URL of
    an image part and the error null, or the image is null and the error a
    non-empty message. *)
Lemma handleGenerate_past_guards_run (r : Revision) (s : State)
    (ls : gmap string string) (api : GenerateContentParameters → Outcome)
    (img : string) :
  selectedImage s = Some img → truthy img = true → truthy (apiKey s) = true →
  ∃ gen err,
    run (mkPage s ls) (handleGenerate r s api) =
      mkPage (with_outputs s gen false err (prompt_after r s)) ls ∧
    requests (handleGenerate r s api) = [request_of img (prompt s)] ∧
    ((∃ part, has_image part = true ∧ gen = Some (data_url part) ∧ err = None) ∨
     (gen = None ∧ ∃ msg, err = Some msg ∧ truthy msg = true)).
Proof.
  intros Himg Ht Hkey.
  rewrite (handleGenerate_past_guards r s api img Himg Ht Hkey).
  unfold try_catch_finally, try_block.
  assert (Hcatch : ∀ err, ∃ msg,
            catch_block r err = [setError (Some msg)] ∧ truthy msg = true)
    by (intros err; apply catch_block_sets_error).
  destruct (api (request_of img (prompt s))) as [response|err].
  - destruct (find_first_image response) as [url|] eqn:Hfind.
    + exists (Some url), None. split; [now destruct r|].
      split; [now destruct r|]. left.
      unfold find_first_image in Hfind.
      destruct (response_parts response) as [ps|]; [|discriminate].
      destruct (find_image_some ps url Hfind) as (part & Hpart & ->).
      now exists part.
    + destruct (truthy_opt (text response)); cbn [fst snd];
        match goal with
        | |- context [catch_block r ?e] =>
            destruct (Hcatch e) as (msg & -> & Hmsg)
        end;
        exists None, (Some msg);
        (split; [now destruct r|]); (split; [now destruct r|]);
        right; split; [reflexivity | now exists msg | reflexivity | now exists msg].
  - cbn [fst snd]. destruct (Hcatch err) as (msg & -> & Hmsg).
    exists None, (Some msg).
    split; [now destruct r|]. split; [now destruct r|].
    right. split; [reflexivity | now exists msg].
Qed.

(** X2.  An attempt issues exactly one request when both guards let it
    through, and none otherwise, whatever the API answers and in either
    text: never a second request after a failure.  The one request is built
    from the selected image and the prompt of the current paper and
    caption. *)
Theorem one_request_per_attempt
    (r : Revision) (s : State) (api : GenerateContentParameters → Outcome) :
  requests (handleGenerate r s api) =
  match selectedImage s with
  | Some img => if guards_pass s then [request_of img (prompt s)] else []
  | None => []
  end.
Proof.
  destruct (guards_pass s) eqn:Hpass.
  - destruct (guards_pass_inv s Hpass) as (img & Himg & Ht & Hkey).
    destruct (handleGenerate_past_guards_run r s ∅ api img Himg Ht Hkey)
      as (gen & err & _ & Hreq & _).
    now rewrite Himg.
  - unfold guards_pass in Hpass.
    destruct (truthy_opt (selectedImage s)) eqn:Himg.
    + simpl in Hpass. rewrite (handleGenerate_no_key r s api Himg Hpass).
      now destruct (selectedImage s).
    + rewrite (handleGenerate_no_image r s api Himg).
      now destruct (selectedImage s).
Qed.

Lemma at_index_split_no_sep (sep : ascii) (s : string) :
  occurs sep s = false → at_index (split sep s) 1 = None.
Proof. intros H. now rewrite (split_no_sep sep s H). Qed.

(** X3.  A selected image with no comma in it passes the guards like any
    other: the request is issued all the same, with an undefined payload. *)
Theorem request_without_payload
    (r : Revision) (s : State) (api : GenerateContentParameters → Outcome)
    (img : string) :
  selectedImage s = Some img → truthy img = true → truthy (apiKey s) = true →
  occurs "," img = false →
  ∃ req, requests (handleGenerate r s api) = [req] ∧
         req_data req = None ∧ req_text req = prompt s.
Proof.
  intros Himg Ht Hkey Hcomma.
  destruct (handleGenerate_past_guards_run r s ∅ api img Himg Ht Hkey)
    as (gen & err & _ & Hreq & _).
  exists (request_of img (prompt s)). split; [exact Hreq|].
  split; [|reflexivity].
  unfold request_of. cbn [req_data]. now apply at_index_split_no_sep.
Qed.

(** An instance: a selected image that is no data URL. *)
Lemma request_without_payload_witness :
  ∃ req,
    requests (handleGenerate part_001 blob_state
                (always (Rejected fetch_error))) = [req] ∧
    req_data req = None.
Proof.
  destruct (request_without_payload part_001 blob_state
              (always (Rejected fetch_error)) "blob"
              eq_refl eq_refl eq_refl eq_refl) as (req & Hreq & Hdata & _).
  now exists req.
Defined.

(** ** What an attempt leaves alone *)

(** X4.  Whatever the guards decide and the API answers, [handleGenerate]
    leaves the selected image, the caption, the paper type, the credential
    and the browser-local store as they were. *)
Theorem handleGenerate_frame
    (r : Revision) (s : State) (ls : gmap string string)
    (api : GenerateContentParameters → Outcome) :
  let w' := run (mkPage s ls) (handleGenerate r s api) in
  selectedImage (state w') = selectedImage s ∧
  customText (state w') = customText s ∧
  paperType (state w') = paperType s ∧
  apiKey (state w') = apiKey s ∧
  localStorage w' = ls.
Proof.
  intros w'. subst w'. destruct (guards_pass s) eqn:Hpass.
  - destruct (guards_pass_inv s Hpass) as (img & Himg & Ht & Hkey).
    destruct (handleGenerate_past_guards_run r s ls api img Himg Ht Hkey)
      as (gen & err & -> & _). now repeat split.
  - unfold guards_pass in Hpass.
    destruct (truthy_opt (selectedImage s)) eqn:Himg.
    + simpl in Hpass. rewrite (handleGenerate_no_key r s api Himg Hpass).
      now repeat split.
    + rewrite (handleGenerate_no_image r s api Himg). now repeat split.
Qed.

(** X5.  In [part_001], after an attempt that passed the guards, what
    [copyPrompt] copies is the very text of the request that attempt
    issued, whether the attempt ended in an image or in an error. *)
Theorem copyPrompt_copies_sent_prompt
    (s : State) (ls : gmap string string)
    (api : GenerateContentParameters → Outcome) (img : string) :
  selectedImage s = Some img → truthy img = true → truthy (apiKey s) = true →
  let acts := handleGenerate part_001 s api in
  map req_text (requests acts) = [copyPrompt (state (run (mkPage s ls) acts))].
Proof.
  intros Himg Ht Hkey acts. subst acts.
  destruct (handleGenerate_past_guards_run part_001 s ls api img Himg Ht Hkey)
    as (gen & err & -> & -> & _).
  reflexivity.
Qed.

(** An instance: a failed fetch. *)
Lemma copyPrompt_copies_sent_prompt_witness :
  let acts := handleGenerate part_001 ready_state
                (always (Rejected fetch_error)) in
  map req_text (requests acts) =
  [copyPrompt (state (run (mkPage ready_state ∅) acts))].
Proof.
  exact (copyPrompt_copies_sent_prompt ready_state ∅
           (always (Rejected fetch_error)) sample_image
           eq_refl eq_refl eq_refl).
Defined.

(** ** The prompt *)

Lemma includes_append_r (a b sub : string) :
  includes b sub = true → includes (a +:+ b) sub = true.
Proof.
  intros H. induction a as [|c a IH]; [exact H|].
  rewrite append_cons. now apply includes_cons.
Qed.

Lemma prefix_append (s b : string) : String.prefix s (s +:+ b) = true.
Proof.
  induction s as [|c s IH].
  - change ("" +:+ b) with b. now destruct b.
  - rewrite append_cons. simpl. now destruct (Ascii.ascii_dec c c).
Qed.

Lemma includes_head (s b : string) : includes (s +:+ b) s = true.
Proof.
  destruct (s +:+ b) eqn:E; cbn [includes]; rewrite <- E, prefix_append;
    reflexivity.
Qed.

(** X6.  The prompt of every attempt carries the caption as typed, between
    double quotes and unescaped, and names the chosen paper both as the
    notebook paper and as the sheet of the background. *)
Theorem prompt_embeds_choices (p : PaperType) (words : string) :
  includes (prompt_of p words) (dquote +:+ words +:+ dquote) = true ∧
  includes (prompt_of p words) (PaperType_str p +:+ " notebook paper") = true ∧
  includes (prompt_of p words)
    ("a real sheet of " +:+ PaperType_str p +:+ " paper.") = true.
Proof.
  split; [|split].
  - unfold prompt_of. do 19 apply includes_append_r.
    rewrite <- (string_append_assoc words dquote).
    rewrite <- (string_append_assoc dquote (words +:+ dquote)).
    apply includes_head.
  - unfold prompt_of. apply includes_append_r.
    rewrite <- string_append_assoc.
    eapply prefix_includes; [apply prefix_append|].
    destruct p; vm_compute; reflexivity.
  - unfold prompt_of. do 8 apply includes_append_r.
    rewrite <- (string_append_assoc (PaperType_str p)).
    rewrite <- string_append_assoc.
    eapply prefix_includes; [apply prefix_append|].
    destruct p; vm_compute; reflexivity.
Qed.

(** ** Typing a key after an attempt *)

(** The page after an edit of the key field. *)
Lemma handleApiKeyChange_run (w : Page) (newKey : string) :
  run w (handleApiKeyChange (state w) newKey) =
  mkPage
    (mkState (selectedImage (state w)) (generatedImage (state w))
       (isGenerating (state w))
       match error (state w) with
       | Some e =>
           if includes e "API key" || includes e "Authentication"
           then None else Some e
       | None => None
       end
       (customText (state w)) (paperType (state w)) (lastPrompt (state w))
       newKey)
    (<[storage_key := newKey]> (localStorage w)).
Proof.
  destruct w as [[sel gen busy err words paper last key] ls].
  unfold handleApiKeyChange. cbn [state error].
  destruct err as [e|]; [|reflexivity].
  destruct (includes e "API key" || includes e "Authentication") eqn:Hauth.
  - assert (He : truthy e = true).
    { apply orb_true_iff in Hauth as [H|H]; eapply truthy_includes; eauto. }
    now rewrite He.
  - now rewrite andb_false_r.
Qed.

(** The message either handler of [catch] writes for a failure that names a
    credential phrase in its string form, and the one [part_001] writes for
    a failure that names none and signals no domain error. *)
Lemma catch_block_credential (r : Revision) (err : Thrown) :
  mentions_credential (toString err) = true →
  catch_block r err = [setError (Some msg_auth)].
Proof.
  unfold mentions_credential. intros H.
  destruct r; simpl; unfold Part000.catch_block, Part001.catch_block; cbv zeta;
    now rewrite H.
Qed.

Lemma catch_block_fallback (err : Thrown) :
  signals_domain (or_else (message err) "") = false →
  catch_block part_001 err = [setError (Some msg_auth)] ∨
  catch_block part_001 err = [setError (Some msg_billing)].
Proof.
  unfold signals_domain. intros H. simpl. unfold Part001.catch_block. cbv zeta.
  rewrite H. destruct (_ || _ || _ || _); [now left | now right].
Qed.

(** X7.  After an attempt that ended as an authentication failure (either
    text), or in [part_001] as the billing hint, the next edit of the key
    field clears the error: both messages name the API key.  The edit
    stores the typed key as well. *)
Theorem key_edit_clears_credential_error
    (r : Revision) (s : State) (ls : gmap string string)
    (api : GenerateContentParameters → Outcome) (img : string) (err : Thrown)
    (newKey : string) :
  selectedImage s = Some img → truthy img = true → truthy (apiKey s) = true →
  snd (try_block img (prompt s) api) = Some err →
  mentions_credential (toString err) = true ∨
  (r = part_001 ∧ signals_domain (or_else (message err) "") = false) →
  let w1 := run (mkPage s ls) (handleGenerate r s api) in
  let w2 := run w1 (handleApiKeyChange (state w1) newKey) in
  (error (state w1) = Some msg_auth ∨ error (state w1) = Some msg_billing) ∧
  error (state w2) = None ∧
  apiKey (state w2) = newKey ∧
  localStorage w2 !! "gemini_api_key" = Some newKey.
Proof.
  intros Himg Ht Hkey Hthrown Hkind w1 w2.
  assert (Hmsg : ∃ msg, catch_block r err = [setError (Some msg)] ∧
                        (msg = msg_auth ∨ msg = msg_billing)).
  { destruct Hkind as [Hcred|[-> Hdom]].
    - exists msg_auth. split; [now apply catch_block_credential | now left].
    - destruct (catch_block_fallback err Hdom) as [H|H];
        [exists msg_auth | exists msg_billing]; split; auto. }
  destruct Hmsg as (msg & Hcatch & Hmsg).
  destruct (attempt_failure r s ls api img Himg Ht Hkey err msg Hthrown Hcatch)
    as (_ & Herr & _). fold w1 in Herr.
  subst w2. rewrite handleApiKeyChange_run. cbn [state error apiKey localStorage].
  rewrite Herr. split; [destruct Hmsg as [->| ->]; auto|].
  split; [destruct Hmsg as [->| ->]; reflexivity|].
  split; [reflexivity | apply lookup_insert_eq].
Qed.

(** An instance: a rejected key, then a keystroke. *)
Lemma key_edit_clears_credential_error_witness :
  let rejected := mkThrown "ApiError: 403 Forbidden" (Some "403 Forbidden") in
  let w1 := run (mkPage ready_state ∅)
              (handleGenerate part_000 ready_state (always (Rejected rejected))) in
  error (state w1) = Some msg_auth ∧
  error (state (run w1 (handleApiKeyChange (state w1) "A"))) = None.
Proof.
  destruct (key_edit_clears_credential_error part_000 ready_state ∅
              (always (Rejected (mkThrown "ApiError: 403 Forbidden"
                                   (Some "403 Forbidden"))))
              sample_image _ "A" eq_refl eq_refl eq_refl eq_refl
              (or_introl eq_refl)) as (_ & Hcleared & _).
  split; [reflexivity | exact Hcleared].
Defined.

(** X8.  The message of the credential guard is not among the errors a key
    edit clears: it spells [API Key], the edit looks for [API key].  After
    an attempt stopped by an empty credential, typing a key stores the key
    and leaves the message on the page. *)
Theorem key_edit_keeps_missing_key_message
    (r : Revision) (s : State) (ls : gmap string string)
    (api : GenerateContentParameters → Outcome) (newKey : string) :
  truthy_opt (selectedImage s) = true → apiKey s = "" →
  let w1 := run (mkPage s ls) (handleGenerate r s api) in
  let w2 := run w1 (handleApiKeyChange (state w1) newKey) in
  error (state w2) = Some "Please enter your Gemini API Key first." ∧
  apiKey (state w2) = newKey.
Proof.
  intros Himg Hkey w1 w2. subst w2 w1.
  rewrite (handleGenerate_no_key r s api Himg) by now rewrite Hkey.
  now rewrite handleApiKeyChange_run.
Qed.

(** An instance: the key typed after the guard stopped an attempt. *)
Lemma key_edit_keeps_missing_key_message_witness :
  let w1 := run (mkPage keyless_state ∅)
              (handleGenerate part_001 keyless_state
                 (always (Resolved image_response))) in
  error (state (run w1 (handleApiKeyChange (state w1) "AIza-sample")))
  = Some msg_missing_key.
Proof.
  exact (proj1 (key_edit_keeps_missing_key_message part_001 keyless_state ∅
                  (always (Resolved image_response)) "AIza-sample"
                  eq_refl eq_refl)).
Defined.

(** X9.  A content error is no credential error: after a response without
    an image, the message the attempt left is still there after an edit of
    the key field. *)
Theorem key_edit_keeps_content_error
    (r : Revision) (s : State) (ls : gmap string string)
    (api : GenerateContentParameters → Outcome) (img : string)
    (response : GenerateContentResponse) (newKey : string) :
  selectedImage s = Some img → truthy img = true → truthy (apiKey s) = true →
  api (request_of img (prompt s)) = Resolved response →
  image_bearing response = false →
  let w1 := run (mkPage s ls) (handleGenerate r s api) in
  let w2 := run w1 (handleApiKeyChange (state w1) newKey) in
  error (state w2) =
    Some (if truthy_opt (text response) then msg_text_instead else msg_no_image) ∧
  generatedImage (state w2) = None.
Proof.
  intros Himg Ht Hkey Hapi Hnone w1 w2.
  pose proof (find_first_image_none response Hnone) as Hfind.
  assert (H1 : generatedImage (state w1) = None ∧
               error (state w1) =
                 Some (if truthy_opt (text response)
                       then msg_text_instead else msg_no_image)).
  { destruct (truthy_opt (text response)) eqn:Htext.
    - destruct (attempt_failure r s ls api img Himg Ht Hkey
                  (new_Error msg_text_instead) msg_text_instead
                  (try_block_text s api img response Hapi Hfind Htext)
                  (catch_block_text_instead r)) as (Hgen & Herr & _).
      now split.
    - destruct (attempt_failure r s ls api img Himg Ht Hkey
                  (new_Error msg_no_image) msg_no_image
                  (try_block_empty s api img response Hapi Hfind Htext)
                  (catch_block_no_image r)) as (Hgen & Herr & _).
      now split. }
  destruct H1 as [Hgen Herr]. subst w2. rewrite handleApiKeyChange_run.
  cbn [state error generatedImage]. rewrite Herr, Hgen.
  split; [|reflexivity]. now destruct (truthy_opt (text response)).
Qed.

(** An instance: a text-only answer, then a keystroke. *)
Lemma key_edit_keeps_content_error_witness :
  let w1 := run (mkPage ready_state ∅)
              (handleGenerate part_001 ready_state
                 (always (Resolved text_response))) in
  error (state (run w1 (handleApiKeyChange (state w1) "A")))
  = Some msg_text_instead.
Proof.
  exact (proj1 (key_edit_keeps_content_error part_001 ready_state ∅
                  (always (Resolved text_response)) sample_image text_response
                  "A" eq_refl eq_refl eq_refl eq_refl eq_refl)).
Defined.

(** ** Pages reached from a page load *)

(** A property of the loaded page that every handler keeps holds along the
    visit. *)
Lemma session_invariant (P : Page → Prop) (r : Revision) (evs : list Event)
    (w : Page) :
  P w → (∀ w ev, P w → P (run w (dispatch r (state w) ev))) →
  P (session r w evs).
Proof.
  intros Hw Hstep. revert w Hw.
  induction evs as [|ev evs IH]; intros w Hw; [exact Hw|].
  simpl. apply IH. now apply Hstep.
Qed.

(** The page after a click on the generate button: the same page (button
    disabled, or no image), the page with the missing-credential message,
    or the page after an attempt that passed the guards. *)
Lemma generate_step (r : Revision) (s : State) (ls : gmap string string)
    (api : GenerateContentParameters → Outcome) :
  let w' := run (mkPage s ls) (dispatch r s (GenerateClicked api)) in
  w' = mkPage s ls ∨
  w' = mkPage (with_outputs s (generatedImage s) (isGenerating s)
                 (Some msg_missing_key) (lastPrompt s)) ls ∨
  ∃ gen err,
    w' = mkPage (with_outputs s gen false err (prompt_after r s)) ls ∧
    ((∃ part, has_image part = true ∧ gen = Some (data_url part) ∧ err = None) ∨
     (gen = None ∧ ∃ msg, err = Some msg ∧ truthy msg = true)).
Proof.
  cbn [dispatch]. destruct (negb _ || _); [now left|].
  destruct (guards_pass s) eqn:Hpass.
  - destruct (guards_pass_inv s Hpass) as (img & Himg & Ht & Hkey).
    destruct (handleGenerate_past_guards_run r s ls api img Himg Ht Hkey)
      as (gen & err & Hrun & _ & Hcases).
    right; right. now exists gen, err.
  - unfold guards_pass in Hpass.
    destruct (truthy_opt (selectedImage s)) eqn:Himg.
    + simpl in Hpass. rewrite (handleGenerate_no_key r s api Himg Hpass).
      right; left. now destruct s.
    + rewrite (handleGenerate_no_image r s api Himg). now left.
Qed.

(** X10.  On every page reached from a page load by the controls, a
    generated image and an error stand side by side only when the error is
    the missing-credential message: every other handler that writes one of
    the two clears the other. *)
Theorem image_beside_error_only_for_missing_key
    (r : Revision) (ls : gmap string string) (env_API_KEY : option string)
    (evs : list Event) :
  let s := state (session r (load ls env_API_KEY) evs) in
  generatedImage s = None ∨ error s = None ∨
  error s = Some "Please enter your Gemini API Key first.".
Proof.
  cbv zeta.
  apply (session_invariant
           (λ w, generatedImage (state w) = None ∨ error (state w) = None ∨
                 error (state w) = Some msg_missing_key)); [now left|].
  intros w ev Hw.
  destruct ev as [files|p|t|newKey|api|];
    [| | |cbn [dispatch]; rewrite handleApiKeyChange_run|..];
    destruct w as [s ls']; cbn [state] in *.
  - destruct files as [[|file others]|]; cbn; auto.
  - exact Hw.
  - exact Hw.
  - cbn. destruct Hw as [H|[H|H]]; rewrite H; auto.
  - destruct (generate_step r s ls' api) as [->|[->|(gen & err & -> & Hcases)]];
      cbn; auto.
    destruct Hcases as [(part & _ & _ & ->)|[-> _]]; auto.
  - now left.
Qed.

(** On every page reached from a page load by the controls, the error,
    when set, is a non-empty message, and the generated image, when set, is
    what the handler stored for an image part of a response. *)
Lemma reachable_outputs_built
    (r : Revision) (ls : gmap string string) (env_API_KEY : option string)
    (evs : list Event) :
  let s := state (session r (load ls env_API_KEY) evs) in
  (error s = None ∨ ∃ msg, error s = Some msg ∧ truthy msg = true) ∧
  (generatedImage s = None ∨
   ∃ part, has_image part = true ∧ generatedImage s = Some (data_url part)).
Proof.
  cbv zeta.
  apply (session_invariant
           (λ w, (error (state w) = None ∨
                  ∃ msg, error (state w) = Some msg ∧ truthy msg = true) ∧
                 (generatedImage (state w) = None ∨
                  ∃ part, has_image part = true ∧
                          generatedImage (state w) = Some (data_url part))));
    [split; now left|].
  intros w ev [Herr Hgen].
  destruct ev as [files|p|t|newKey|api|];
    [| | |cbn [dispatch]; rewrite handleApiKeyChange_run|..];
    destruct w as [s ls']; cbn [state] in *.
  - destruct files as [[|file others]|]; cbn; auto.
  - now split.
  - now split.
  - cbn. split; [|exact Hgen].
    destruct Herr as [->|(msg & -> & Hmsg)]; [now left|].
    destruct (_ || _); [now left | right; now exists msg].
  - destruct (generate_step r s ls' api) as [->|[->|(gen & err & -> & Hcases)]];
      cbn.
    + now split.
    + split; [right; now exists msg_missing_key | exact Hgen].
    + destruct Hcases as [(part & Hpart & -> & ->)|[-> (msg & -> & Hmsg)]].
      * split; [now left | right; now exists part].
      * split; [right; now exists msg | now left].
  - split; [exact Herr | now left].
Qed.

(** X11.  On every page reached from a page load by the controls, the
    error, when set, is a non-empty message, and the generated image, when
    set, is a data URL of an image part of a response: [data:], the MIME
    type of the part (or [image/png] when the part names none),
    [;base64,] and the non-empty data of the part. *)
Theorem reachable_outputs_well_formed
    (r : Revision) (ls : gmap string string) (env_API_KEY : option string)
    (evs : list Event) :
  let s := state (session r (load ls env_API_KEY) evs) in
  (error s = None ∨ ∃ msg, error s = Some msg ∧ msg ≠ "") ∧
  (generatedImage s = None ∨
   ∃ part blob d,
     inlineData part = Some blob ∧ data blob = Some d ∧ d ≠ "" ∧
     generatedImage s =
       Some ("data:" +:+ match mimeType blob with
                         | Some (String c m) => String c m
                         | _ => "image/png"
                         end +:+ ";base64," +:+ d)).
Proof.
  cbv zeta.
  destruct (reachable_outputs_built r ls env_API_KEY evs) as [Herr Hgen].
  split.
  - destruct Herr as [Herr|(msg & Herr & Hmsg)]; [now left|].
    right. exists msg. split; [exact Herr | now destruct msg].
  - destruct Hgen as [Hgen|(part & Hpart & Hgen)]; [now left|].
    destruct (has_image_inv part Hpart) as (blob & d & Hblob & Hdata & Hd & Hurl).
    right. exists part, blob, d. rewrite <- Hurl. now repeat split.
Qed.

(** X12.  Whatever the controls do, the browser-local store is the store
    the page was loaded over, but for the one name [gemini_api_key]: no
    other name is ever written or removed. *)
Theorem store_changes_only_at_key
    (r : Revision) (ls : gmap string string) (env_API_KEY : option string)
    (evs : list Event) (name : string) :
  name ≠ "gemini_api_key" →
  localStorage (session r (load ls env_API_KEY) evs) !! name = ls !! name.
Proof.
  intros Hname.
  apply (session_invariant (λ w, localStorage w !! name = ls !! name));
    [reflexivity|].
  intros w ev Hw.
  destruct ev as [files|p|t|newKey|api|];
    [| | |cbn [dispatch]; rewrite handleApiKeyChange_run|..];
    destruct w as [s ls']; cbn [state localStorage] in *.
  - now destruct files as [[|file others]|].
  - exact Hw.
  - exact Hw.
  - rewrite lookup_insert_ne; [exact Hw|]. unfold storage_key. congruence.
  - now destruct (generate_step r s ls' api)
      as [->|[->|(gen & err & -> & _)]].
  - exact Hw.
Qed.

(** An instance: a name of another application, after a key was typed. *)
Lemma store_changes_only_at_key_witness :
  localStorage (session part_001 (load {[ "theme" := "dark" ]} None)
                  [KeyTyped "AIza-sample"]) !! "theme" = Some "dark".
Proof.
  exact (store_changes_only_at_key part_001 {[ "theme" := "dark" ]} None
           [KeyTyped "AIza-sample"] "theme" ltac:(discriminate)).
Defined.

(** ** From the data URL to a file *)


Lemma char_codes_lookup (s : string) (i : nat) :
  char_codes s !! i = charCodeAt s i.
Proof.
  unfold charCodeAt. revert i. induction s as [|c s IH]; intros i.
  - now destruct i.
  - destruct i as [|i]; [reflexivity|]. apply IH.
Qed.

Lemma charCodeAt_in_range (s : string) (i : nat) :
  i < String.length s → ∃ c, charCodeAt s i = Some (nat_of_ascii c).
Proof.
  unfold charCodeAt. revert i. induction s as [|c s IH]; intros i Hi.
  - simpl in Hi. lia.
  - destruct i as [|i]; [now exists c|]. apply IH. simpl in Hi. lia.
Qed.

Lemma charCodeAt_out_of_range (s : string) (i : nat) :
  (String.length s ≤ i)%nat → charCodeAt s i = None.
Proof.
  unfold charCodeAt. revert i. induction s as [|c s IH]; intros i Hi.
  - now destruct i.
  - destruct i as [|i]; [simpl in Hi; lia|]. apply IH. simpl in Hi. lia.
Qed.

(** A character code is a byte already. *)
Lemma to_uint8_code (c : ascii) : to_uint8 (Some (nat_of_ascii c)) = nat_of_ascii c.
Proof. unfold to_uint8. apply Nat.mod_small, nat_ascii_bounded. Qed.

(** The loop, read at index [i] after [n] rounds: the indices below [n]
    hold the character codes, the others what the array held. *)
Lemma fill_lookup (bstr : string) (n : nat) (u8arr : list nat) (i : nat) :
  (n ≤ length u8arr)%nat →
  fill n bstr u8arr !! i =
  if decide (i < n) then Some (to_uint8 (charCodeAt bstr i)) else u8arr !! i.
Proof.
  revert u8arr. induction n as [|n IH]; intros u8arr Hn; simpl.
  - destruct (decide (i < 0)); [lia | reflexivity].
  - rewrite IH by (rewrite length_insert; lia).
    destruct (decide (i < n)) as [Hlt|Hge].
    + destruct (decide (i < S n)); [reflexivity | lia].
    + destruct (decide (i = n)) as [->|Hne].
      * destruct (decide (n < S n)); [|lia].
        apply list_lookup_insert_eq. lia.
      * destruct (decide (i < S n)); [lia|].
        now apply list_lookup_insert_ne.
Qed.

(** The loop copies the binary string, byte for byte and in order. *)
Lemma fill_char_codes (bstr : string) :
  fill (String.length bstr) bstr (replicate (String.length bstr) 0)
  = char_codes bstr.
Proof.
  apply list_eq. intros i.
  rewrite fill_lookup by now rewrite length_replicate.
  rewrite char_codes_lookup.
  destruct (decide (i < String.length bstr)) as [Hlt|Hge].
  - destruct (charCodeAt_in_range bstr i Hlt) as [c ->].
    now rewrite to_uint8_code.
  - rewrite lookup_ge_None_2 by (rewrite length_replicate; lia).
    symmetry. apply charCodeAt_out_of_range. lia.
Qed.



(** A character of U+0020 to U+007E starts no line terminator. *)
Lemma printable_not_line_terminator (c : ascii) (s : string) :
  is_printable c = true → is_line_terminator (String c s) = false.
Proof.
  destruct c as [[] [] [] [] [] [] [] []]; intros H;
    try discriminate H; reflexivity.
Qed.

Lemma lazy_until_semicolon_app (m rest : string) :
  all_printable m = true → occurs ";" m = false →
  lazy_until_semicolon (m +:+ String ";" rest) = Some m.
Proof.
  induction m as [|c m IH].
  - reflexivity.
  - rewrite append_cons. cbn [all_printable occurs lazy_until_semicolon].
    intros Hprint Hsemi.
    apply andb_true_iff in Hprint as [Hc Hprint].
    apply orb_false_iff in Hsemi as [-> Hsemi].
    rewrite (printable_not_line_terminator c _ Hc).
    now rewrite (IH Hprint Hsemi).
Qed.

(** X14.  On a data URL [data:<mime>;base64,<payload>] whose MIME type is
    made of characters of U+0020 to U+007E other than comma and semicolon,
    and whose payload has no comma, [dataURLtoFile] returns the file whose
    type is that MIME type in ASCII lower case, whose name is the given
    name and whose bytes are those [atob] decodes from that payload; it
    throws exactly when [atob] does. *)
Theorem dataURLtoFile_data_url
    (atob : string → option string) (mime payload filename : string) :
  all_printable mime = true →
  occurs "," mime = false → occurs ";" mime = false →
  occurs "," payload = false →
  dataURLtoFile atob ("data:" +:+ mime +:+ ";base64," +:+ payload) filename =
  match atob payload with
  | Some bstr =>
      Normal (Some (mkJsFile (char_codes bstr) filename (lowercase mime)))
  | None => Abrupt
  end.
Proof.
  intros Hprint Hcomma Hsemi Hpayload. unfold dataURLtoFile.
  assert (Hcut : split "," ("data:" +:+ mime +:+ ";base64," +:+ payload)
                 = ("data:" +:+ mime +:+ ";base64") :: [payload]).
  { replace ("data:" +:+ mime +:+ ";base64," +:+ payload)
      with (("data:" +:+ mime +:+ ";base64") +:+ String "," payload)
      by (rewrite !string_append_assoc; reflexivity).
    rewrite split_app_sep, (split_no_sep _ _ Hpayload); [reflexivity|].
    rewrite !occurs_append, Hcomma. reflexivity. }
  rewrite Hcut. cbn [at_index lookup list_lookup].
  assert (Hmatch : match_mime ("data:" +:+ mime +:+ ";base64") = Some mime).
  { change ("data:" +:+ mime +:+ ";base64")
      with (String "d" (String "a" (String "t" (String "a" (String ":"
              (mime +:+ String ";" "base64")))))).
    cbn [match_mime Ascii.eqb Bool.eqb].
    now rewrite lazy_until_semicolon_app. }
  rewrite Hmatch. destruct (atob payload) as [bstr|]; [|reflexivity].
  cbv zeta. unfold file_type_attribute. now rewrite fill_char_codes, Hprint.
Qed.

(** An instance: a sketch whose MIME type is written in upper case. *)
Lemma dataURLtoFile_data_url_witness :
  dataURLtoFile sample_atob ("data:" +:+ "IMAGE/PNG" +:+ ";base64," +:+ "AAAA")
    "notebook-sketch.png"
  = Normal (Some (mkJsFile [0; 0; 0] "notebook-sketch.png" "image/png")).
Proof.
  exact (dataURLtoFile_data_url sample_atob "IMAGE/PNG" "AAAA"
           "notebook-sketch.png" eq_refl eq_refl eq_refl eq_refl).
Defined.

(** Outside those MIME types: a line separator (U+2028) before the
    semicolon leaves the expression without a match, so the answer is null
    whatever [atob] would do; and after a line break the type is taken
    from a later colon. *)
Example dataURLtoFile_line_separator (atob : string → option string) :
  dataURLtoFile atob
    ("data:image/" +:+ String "226" (String "128" (String "168" "png"))
     +:+ ";base64,AAAA") "a.png"
  = Normal None.
Proof. reflexivity. Qed.

Example match_mime_later_colon :
  match_mime ("a:b" +:+ String "010" "c:d;e") = Some "d".
Proof. reflexivity. Qed.

(** ** Handing the sketch over *)

(** X15.  With no sketch on the page [handleDownload] does nothing.  With
    one, it always hands it over, and once: either by the download link
    alone, with the sketch as target and [notebook-sketch.png] as name, or
    by one call of [navigator.share] with the file made from the sketch,
    followed by the download link exactly when that call is rejected.  No
    failure on the way (no [share], no [canShare], a refusal, a URL that is
    no file, a throw of [atob]) leaves the click without effect. *)
Theorem handleDownload_delivers
    (s : State) (navigator : Navigator) (atob : string → option string) :
  let acts := handleDownload s navigator atob in
  match generatedImage s with
  | None => acts = []
  | Some url =>
      if truthy url then
        let by_link := link_click url "notebook-sketch.png" in
        acts = [by_link] ∨
        ∃ share_fn can_fn file,
          share navigator = Some share_fn ∧
          canShare navigator = Some can_fn ∧
          dataURLtoFile atob url "notebook-sketch.png" = Normal (Some file) ∧
          can_fn file = true ∧
          acts = navigator_share file "My Notebook Sketch"
                   "Check out this sketch created by NotebookSketch!"
                 :: (if share_fn file then [] else [by_link])
      else acts = []
  end.
Proof.
  unfold handleDownload. cbv zeta.
  destruct (generatedImage s) as [url|]; [|reflexivity].
  destruct (truthy url); [|reflexivity]. cbn [negb].
  destruct (share navigator) as [share_fn|] eqn:Hshare; [|now left].
  destruct (dataURLtoFile atob url "notebook-sketch.png") as [[file|]|] eqn:Hfile;
    [|now left|now left].
  destruct (canShare navigator) as [can_fn|] eqn:Hcan; [|now left].
  destruct (can_fn file) eqn:Hok; [|now left].
  right. exists share_fn, can_fn, file.
  repeat split; try assumption. now destruct (share_fn file).
Qed.

(** ** What the result panel shows *)

Lemma data_url_truthy (part : Part) :
  has_image part = true → truthy (data_url part) = true.
Proof.
  unfold has_image, data_url. now destruct (inlineData part).
Qed.

(** X16.  After an attempt that passed the guards the result panel shows
    its outcome.  With an image found, both texts show the sketch.  With a
    failure, [part_001] shows the error panel with the message, and
    [part_000], which has no error panel, goes back to the placeholder over
    the selected image, the message being in the error cell. *)
Theorem result_panel_after_attempt
    (r : Revision) (s : State) (ls : gmap string string)
    (api : GenerateContentParameters → Outcome) (img : string) :
  selectedImage s = Some img → truthy img = true → truthy (apiKey s) = true →
  let s' := state (run (mkPage s ls) (handleGenerate r s api)) in
  (∃ part, has_image part = true ∧
           generatedImage s' = Some (data_url part) ∧
           result_panel r s' = SketchPanel (data_url part)) ∨
  (∃ msg, error s' = Some msg ∧
          result_panel r s' =
            match r with
            | part_000 => Placeholder (Some img)
            | part_001 => ErrorPanel msg
            end).
Proof.
  intros Himg Ht Hkey.
  destruct (handleGenerate_past_guards_run r s ls api img Himg Ht Hkey)
    as (gen & err & -> & _ & Hcases).
  cbv zeta. cbn [state].
  destruct Hcases as [(part & Hpart & -> & ->)|[-> (msg & -> & Hmsg)]].
  - left. exists part. split; [exact Hpart|]. split; [reflexivity|].
    unfold result_panel, with_outputs. cbn.
    rewrite (data_url_truthy part Hpart). now destruct r.
  - right. exists msg. split; [reflexivity|].
    unfold result_panel, with_outputs. cbn.
    rewrite Himg. cbn. rewrite Ht. destruct r; [reflexivity|].
    now rewrite Hmsg.
Qed.

(** An instance: a text-only answer in [part_001]. *)
Lemma result_panel_after_attempt_witness :
  result_panel part_001
    (state (run (mkPage ready_state ∅)
              (handleGenerate part_001 ready_state
                 (always (Resolved text_response)))))
  = ErrorPanel msg_text_instead.
Proof.
  destruct (result_panel_after_attempt part_001 ready_state ∅
              (always (Resolved text_response)) sample_image
              eq_refl eq_refl eq_refl)
    as [(part & _ & Hgen & _)|(msg & Herr & Hpanel)].
  - discriminate Hgen.
  - rewrite Hpanel. injection Herr as <-. reflexivity.
Defined.

(** X17.  When the credential guard stops an attempt on a page that shows
    a sketch, the sketch stays in the state; [part_001] puts the error
    panel in its place, [part_000] keeps showing it. *)
Theorem result_panel_after_credential_guard
    (r : Revision) (s : State) (ls : gmap string string)
    (api : GenerateContentParameters → Outcome) (url : string) :
  truthy_opt (selectedImage s) = true → apiKey s = "" →
  generatedImage s = Some url → truthy url = true →
  let s' := state (run (mkPage s ls) (handleGenerate r s api)) in
  generatedImage s' = Some url ∧
  result_panel r s' =
    match r with
    | part_000 => SketchPanel url
    | part_001 => ErrorPanel "Please enter your Gemini API Key first."
    end.
Proof.
  intros Himg Hkey Hgen Hurl.
  rewrite (handleGenerate_no_key r s api Himg) by now rewrite Hkey.
  cbn. split; [exact Hgen|].
  unfold result_panel. cbn. rewrite Hgen, Hurl. now destruct r.
Qed.

(** An instance: the sketch of an earlier attempt, the key field emptied. *)
Lemma result_panel_after_credential_guard_witness :
  result_panel part_001
    (state (run (mkPage keyless_state ∅)
              (handleGenerate part_001 keyless_state
                 (always (Resolved image_response)))))
  = ErrorPanel msg_missing_key.
Proof.
  exact (proj2 (result_panel_after_credential_guard part_001 keyless_state ∅
                  (always (Resolved image_response)) "data:image/png;base64,OLD"
                  eq_refl eq_refl eq_refl eq_refl)).
Defined.
